(** * The evidence pool of tendermint (evidence/pool.go)

    A shallow embedding of [Pool] and its operations ([NewPool],
    [PendingEvidence], [Update], [AddEvidence], [MarkEvidenceAsCommitted],
    [removeEvidence], [cleanupValToLastHeight], [IsExpired],
    [buildValToLastHeightMap]) together with the properties the
    specification states about them.

    Conventions.
    - [int64] values are [Z]; the subtraction of two heights wraps around
      as Go's does ([sub64]).
    - A Go function that can panic is a computation in the monad [M]: it
      takes the pool, and either finishes with the new pool and a value
      ([Done]) or panics, leaving the pool as it was at that point
      ([Panic]).  A Go [error] result is an ordinary value ([option error],
      [None] being [nil]).
    - The collaborators of the pool (state database, block store, evidence
      verification, the composite evidence's own methods) are the fields
      of an environment record [Env]. *)

From stdpp Require Import base gmap sets list strings sorting.
From Stdlib Require Import ZArith Lia.

Local Open Scope Z_scope.
Set Warnings "-clear-no-such-hyp".

(** ** Machine integers and time *)

Definition int64_wrap (z : Z) : Z := (z + 2 ^ 63) mod 2 ^ 64 - 2 ^ 63.

(** [a - b] on int64. *)
Definition sub64 (a b : Z) : Z := int64_wrap (a - b).

(** time.Duration is an int64 count of nanoseconds. *)
Definition minDuration : Z := - 2 ^ 63.
Definition maxDuration : Z := 2 ^ 63 - 1.

(** time.Time, as an instant in nanoseconds; [t.Sub(u)] is the duration
    [t - u], and the maximum (or minimum) duration when [t - u] does not
    fit a Duration (package time of the Go library). *)
Definition time_Sub (t u : Z) : Z :=
  let d := t - u in
  if d <? minDuration then minDuration
  else if maxDuration <? d then maxDuration
  else d.

(** ** Types of package types and package state *)

Record EvidenceParams := mkEvidenceParams {
  MaxAgeNumBlocks : Z;
  MaxAgeDuration : Z
}.

Record ConsensusParamsT := mkConsensusParams {
  ParamsEvidence : EvidenceParams
}.

(** sm.State, with the fields the pool reads. *)
Record sm_State := mkState {
  LastBlockHeight : Z;
  LastBlockTime : Z;
  ConsensusParams : ConsensusParamsT
}.

Record Validator := mkValidator {
  ValAddress : string;
  VotingPower : Z
}.

Record ValidatorSet := mkValidatorSet {
  Validators : list Validator
}.

(** [vals.GetByAddress(address)]: index and validator of the first entry
    with that address, [(-1, nil)] when there is none. *)
Fixpoint GetByAddress_from (idx : Z) (vals : list Validator) (address : string)
  : Z * option Validator :=
  match vals with
  | [] => (-1, None)
  | val :: rest =>
      if String.eqb (ValAddress val) address then (idx, Some val)
      else GetByAddress_from (idx + 1) rest address
  end.

Definition GetByAddress (vals : ValidatorSet) (address : string)
  : Z * option Validator :=
  GetByAddress_from 0 (Validators vals) address.

(** The concrete evidence types behind the types.Evidence interface.
    ConflictingHeadersEvidence is the one that implements
    types.CompositeEvidence. *)
Inductive EvidenceType :=
| DuplicateVoteEvidence
| LunaticValidatorEvidence
| PotentialAmnesiaEvidence
| PhantomValidatorEvidence
| ConflictingHeadersEvidence.

(** types.Evidence: the dynamic type and what the methods Height(), Time(),
    Address() and Hash() return. *)
Record Evidence := mkEvidence {
  EvType : EvidenceType;
  Height : Z;
  Time : Z;
  Address : string;
  Hash : string
}.

(** The type test of [evidence] against types.CompositeEvidence. *)
Definition isCompositeEvidence (ev : Evidence) : bool :=
  match EvType ev with ConflictingHeadersEvidence => true | _ => false end.

(** The type test of [ev] against a pointer to types.LunaticValidatorEvidence. *)
Definition isLunaticValidatorEvidence (ev : Evidence) : bool :=
  match EvType ev with LunaticValidatorEvidence => true | _ => false end.

Record Header := mkHeader {
  Header_Height : Z;
  Header_Hash : string
}.

Record BlockMeta := mkBlockMeta {
  BlockMeta_Header : Header
}.

Record Block := mkBlock {
  Block_Height : Z;
  Block_Time : Z;
  Block_Evidence : list Evidence
}.

(** Error values. *)
Inductive error :=
| ErrNoValSetForHeight (h : Z)
| ErrOther (msg : string)
| ErrDatabase (err : error)
| ErrEvidenceAlreadyStored
| Errorf_cantLoadValidators (h : Z) (err : error)
| Errorf_noBlockMeta (h : Z)
| Errorf_failedToVerify (ev : Evidence) (err : error).

(** ** The collaborators *)

(** What the pool calls outside of its package: sm.LoadValidators and
    sm.LoadState on the state database, blockStore.LoadBlockMeta,
    sm.VerifyEvidence, and the two methods of composite evidence.  A
    pointer to a ValidatorSet is an [option]: [None] is the nil pointer. *)
Record Env := mkEnv {
  LoadValidators : Z -> option ValidatorSet * option error;
  LoadState : sm_State;
  LoadBlockMeta : Z -> option BlockMeta;
  VerifyEvidence : sm_State -> Evidence -> option Header -> option error;
  VerifyComposite : Evidence -> Header -> option ValidatorSet -> option error;
  Split : Evidence -> Header -> option ValidatorSet -> gmap string Z -> list Evidence
}.

(** ** The evidence store *)

(** Modelled from the spec: the evidence Store (evidence/store.go is not
    among the sources), over an ordered byte-keyed database.  Three name
    spaces: the pending index, whose records lie under
    pending/<priority-descending>/<hash> and are held here in the order of
    these keys, each with its priority; the committed markers, by digest;
    the out-queue, by digest.  [dbError] is the failure of the database:
    the error that a lookup of a digest comes back with, nil where the
    lookup works. *)
Record Store := mkStore {
  pendingIndex : list (Z * Evidence);
  committedMarks : gset string;
  outqueue : gmap string Evidence;
  dbError : string -> option error
}.

Definition emptyStore : Store := mkStore [] ∅ ∅ (fun _ => None).

Definition pendingHas (l : list (Z * Evidence)) (h : string) : bool :=
  existsb (fun e => String.eqb (Hash e.2) h) l.

(** The digest is in one of the name spaces. *)
Definition Store_contains (s : Store) (evidence : Evidence) : bool :=
  pendingHas (pendingIndex s) (Hash evidence)
  || bool_decide (Hash evidence ∈ committedMarks s)
  || bool_decide (is_Some (outqueue s !! Hash evidence)).

(** Modelled from the spec: [store.Has(evidence)], the digest existence
    check across all name spaces, or the error of the database where the
    lookup fails. *)
Definition Store_Has (s : Store) (evidence : Evidence) : bool * option error :=
  match dbError s (Hash evidence) with
  | Some e => (false, Some e)
  | None => (Store_contains s evidence, None)
  end.

(** The order of the keys pending/<priority-descending>/<hash>: the key
    of priority [p] and digest [h] lies before the key of priority [q] and
    digest [h'] when [p] is the higher priority, or the priorities are
    equal and [h] is the smaller digest, byte by byte. *)
Definition keyLtb (p : Z) (h : string) (q : Z) (h' : string) : bool :=
  (q <? p) || ((q =? p) && String.ltb h h').

Definition keyEqb (p : Z) (h : string) (q : Z) (h' : string) : bool :=
  (q =? p) && String.eqb h h'.

(** Setting the record of priority [p] for [ev] in the pending index: at
    the place of its key, in the place of a record of the same key if
    there is one. *)
Fixpoint insertPending (p : Z) (ev : Evidence) (l : list (Z * Evidence))
  : list (Z * Evidence) :=
  match l with
  | [] => [(p, ev)]
  | e :: rest =>
      if keyLtb p (Hash ev) e.1 (Hash e.2) then (p, ev) :: l
      else if keyEqb p (Hash ev) e.1 (Hash e.2) then (p, ev) :: rest
      else e :: insertPending p ev rest
  end.

(** Modelled from the spec: [store.addEvidence(evidence, priority)] writes
    the pending-index entry and the out-queue entry; a digest that is
    already there is an error. *)
Definition Store_addEvidence (s : Store) (evidence : Evidence) (priority : Z)
  : Store * option error :=
  if Store_contains s evidence
  then (s, Some (ErrOther "evidence already in the store"))
  else (mkStore (insertPending priority evidence (pendingIndex s))
                (committedMarks s)
                (<[Hash evidence := evidence]> (outqueue s))
                (dbError s), None).

Definition removePending (h : string) (l : list (Z * Evidence))
  : list (Z * Evidence) :=
  filter (fun e => Hash e.2 ≠ h) l.

(** Modelled from the spec: [store.MarkEvidenceAsCommitted(evidence)] adds
    the committed marker and removes the pending-index entry. *)
Definition Store_MarkEvidenceAsCommitted (s : Store) (evidence : Evidence) : Store :=
  mkStore (removePending (Hash evidence) (pendingIndex s))
          ({[Hash evidence]} ∪ committedMarks s)
          (outqueue s) (dbError s).

(** Modelled from the spec: [store.db.Delete(keyPending(ev))] removes the
    pending-index record of [ev]. *)
Definition Store_deletePending (s : Store) (ev : Evidence) : Store :=
  mkStore (removePending (Hash ev) (pendingIndex s))
          (committedMarks s)
          (outqueue s) (dbError s).

(** Modelled from the spec: [store.listEvidence(baseKeyPending, maxNum)],
    the pending index in its order, up to [maxNum] entries, all of them
    when [maxNum] is negative. *)
Definition Store_listEvidence (s : Store) (maxNum : Z) : list Evidence :=
  let all := (snd <$> pendingIndex s) in
  if maxNum <? 0 then all else take (Z.to_nat maxNum) all.

(** Modelled from the spec: [store.PendingEvidence(maxNum)]. *)
Definition Store_PendingEvidence (s : Store) (maxNum : Z) : list Evidence :=
  Store_listEvidence s maxNum.

(** ** The pool *)

(** Modelled from the spec: the clist of the pool (libs/clist is not among
    the sources) is the sequence of its elements, front first: PushBack
    appends, Remove takes one element out and the walk goes on behind it. *)
Record Pool := mkPool {
  store : Store;
  evidenceList : list Evidence;
  valToLastHeight : gmap string Z;
  state : sm_State
}.

Definition set_store (s : Store) (p : Pool) : Pool :=
  mkPool s (evidenceList p) (valToLastHeight p) (state p).
Definition set_evidenceList (l : list Evidence) (p : Pool) : Pool :=
  mkPool (store p) l (valToLastHeight p) (state p).
Definition set_valToLastHeight (m : gmap string Z) (p : Pool) : Pool :=
  mkPool (store p) (evidenceList p) m (state p).
Definition set_state (st : sm_State) (p : Pool) : Pool :=
  mkPool (store p) (evidenceList p) (valToLastHeight p) st.

(** *** The monad of pool methods *)

Inductive Outcome (A : Type) : Type :=
| Done (p : Pool) (a : A)
| Panic (p : Pool) (msg : string).
Arguments Done {A} p a.
Arguments Panic {A} p msg.

Definition M (A : Type) : Type := Pool -> Outcome A.

Definition ret {A} (a : A) : M A := fun p => Done p a.
Definition bind {A B} (m : M A) (k : A -> M B) : M B :=
  fun p => match m p with
           | Done p' a => k a p'
           | Panic p' msg => Panic p' msg
           end.
Definition panic {A} (msg : string) : M A := fun p => Panic p msg.
Definition gets {A} (f : Pool -> A) : M A := fun p => Done p (f p).
Definition modify (f : Pool -> Pool) : M unit := fun p => Done (f p) tt.

Notation "x <~ m ;; k" := (bind m (fun x => k))
  (at level 100, m at next level, right associativity).
Notation "m ;;; k" := (bind m (fun _ => k))
  (at level 100, right associativity).

Definition nilDereference : string := "invalid memory address or nil pointer dereference".

(** *** Methods of the pool *)

(** [evpool.State()] *)
Definition Pool_State (evpool : Pool) : sm_State := state evpool.

(** [evpool.PendingEvidence(maxNum)] *)
Definition PendingEvidence (evpool : Pool) (maxNum : Z) : list Evidence :=
  Store_PendingEvidence (store evpool) maxNum.

(** [evpool.IsExpired(evidence)] *)
Definition IsExpired (evpool : Pool) (evidence : Evidence) : bool :=
  let params := ParamsEvidence (ConsensusParams (Pool_State evpool)) in
  let ageDuration := time_Sub (LastBlockTime (Pool_State evpool)) (Time evidence) in
  let ageNumBlocks := sub64 (LastBlockHeight (Pool_State evpool)) (Height evidence) in
  (ageNumBlocks >? MaxAgeNumBlocks params) && (ageDuration >? MaxAgeDuration params).

(** [evMapKey(ev)] *)
Definition evMapKey (ev : Evidence) : string := Hash ev.

(** The body of the loop of buildValToLastHeightMap over one validator
    set: an address not yet in the map gets [height]. *)
Definition recordValidators (height : Z) (vals : list Validator)
    (valToLastHeight : gmap string Z) : gmap string Z :=
  foldl (fun m val =>
           let key := ValAddress val in
           match m !! key with
           | Some _ => m
           | None => <[key := height]> m
           end) valToLastHeight vals.

(** The loop of buildValToLastHeightMap.  [height] is the loop variable
    of that name: it is at least one exactly when it is a successor, and
    goes down by one each round.  [None] is the panic of reading the
    validators of a nil set. *)
Fixpoint buildValToLastHeightLoop (env : Env) (params : EvidenceParams)
    (height : nat) (numBlocks : Z) (valToLastHeight : gmap string Z)
  : option (gmap string Z) :=
  match height with
  | O => Some valToLastHeight
  | S height' =>
      if numBlocks <=? MaxAgeNumBlocks params then
        let '(valSet, err) := LoadValidators env (Z.of_nat height) in
        match err with
        | Some (ErrNoValSetForHeight _) => Some valToLastHeight
        | _ =>
            match valSet with
            | None => None
            | Some vs =>
                buildValToLastHeightLoop env params height' (numBlocks + 1)
                  (recordValidators (Z.of_nat height) (Validators vs) valToLastHeight)
            end
        end
      else Some valToLastHeight
  end.

(** [buildValToLastHeightMap(state, stateDB)] *)
Definition buildValToLastHeightMap (env : Env) (st : sm_State)
  : option (gmap string Z) :=
  let params := ParamsEvidence (ConsensusParams st) in
  buildValToLastHeightLoop env params (Z.to_nat (LastBlockHeight st)) 0 ∅.

(** The loop of NewPool over the pending evidence found in the store. *)
Fixpoint loadPending (evList : list Evidence) (pool : Pool) : Pool :=
  match evList with
  | [] => pool
  | ev :: rest =>
      if IsExpired pool ev
      then loadPending rest (set_store (Store_deletePending (store pool) ev) pool)
      else loadPending rest (set_evidenceList (evidenceList pool ++ [ev]) pool)
  end.

(** [NewPool(stateDB, evidenceDB, blockStore)]; [None] when building the
    map of validators panics. *)
Definition NewPool (env : Env) (evidenceDB : Store) : option Pool :=
  let evidenceStore := evidenceDB in
  let st := LoadState env in
  match buildValToLastHeightMap env st with
  | None => None
  | Some m =>
      let pool := mkPool evidenceStore [] m st in
      let evList := Store_listEvidence evidenceStore (-1) in
      Some (loadPending evList pool)
  end.

(** The header a unit is verified against: the one of the block at its
    height for lunatic validator evidence, nil for the other types; or the
    error of a missing block. *)
Definition fetchHeader (env : Env) (ev : Evidence) : option Header + error :=
  if isLunaticValidatorEvidence ev then
    match LoadBlockMeta env (Height ev) with
    | None => inr (Errorf_noBlockMeta (Height ev))
    | Some blockMeta => inl (Some (BlockMeta_Header blockMeta))
    end
  else inl None.

(** One round of the loop of AddEvidence, for the unit [ev] of the
    submitted [evidence].  [Some err] is the error the call returns at
    once, [None] lets the loop go on. *)
Definition addEvidenceUnit (env : Env) (st : sm_State)
    (valSet : option ValidatorSet) (evidence ev : Evidence) : M (option error) :=
  s <~ gets store ;;
  let '(ok, err) := Store_Has s evidence in
  match err with
  | Some e => ret (Some (ErrDatabase e))
  | None =>
  if ok then ret (Some ErrEvidenceAlreadyStored) else
  match fetchHeader env ev with
  | inr e => ret (Some e)
  | inl header =>
  match VerifyEvidence env st ev header with
  | Some e => ret (Some (Errorf_failedToVerify ev e))
  | None =>
  match valSet with
  | None => panic nilDereference
  | Some vs =>
  match (GetByAddress vs (Address ev)).2 with
  | None => panic nilDereference
  | Some val =>
  let priority := VotingPower val in
  let '(s', err) := Store_addEvidence s ev priority in
  match err with
  | Some e => ret (Some (ErrDatabase e))
  | None =>
      modify (set_store s') ;;;
      modify (fun p => set_evidenceList (evidenceList p ++ [ev]) p) ;;;
      ret None
  end end end end end end.

(** [for _, ev := range evList { ... }] of AddEvidence. *)
Fixpoint addEvidenceLoop (env : Env) (st : sm_State)
    (valSet : option ValidatorSet) (evidence : Evidence)
    (evList : list Evidence) : M (option error) :=
  match evList with
  | [] => ret None
  | ev :: rest =>
      r <~ addEvidenceUnit env st valSet evidence ev ;;
      match r with
      | Some e => ret (Some e)
      | None => addEvidenceLoop env st valSet evidence rest
      end
  end.

(** AddEvidence up to its loop: the validator set loaded at the height of
    the submitted evidence and the list of units, or the error returned
    before the loop. *)
Definition evidenceUnits (env : Env) (evpool : Pool) (evidence : Evidence)
  : error + (option ValidatorSet * list Evidence) :=
  let '(valSet, err) := LoadValidators env (Height evidence) in
  match err with
  | Some e => inl (Errorf_cantLoadValidators (Height evidence) e)
  | None =>
      if isCompositeEvidence evidence then
        match LoadBlockMeta env (Height evidence) with
        | None => inl (Errorf_noBlockMeta (Height evidence))
        | Some blockMeta =>
            match VerifyComposite env evidence (BlockMeta_Header blockMeta) valSet with
            | Some e => inl e
            | None =>
                inr (valSet, Split env evidence (BlockMeta_Header blockMeta) valSet
                               (valToLastHeight evpool))
            end
        end
      else inr (valSet, [evidence])
  end.

(** [evpool.AddEvidence(evidence)] *)
Definition AddEvidence (env : Env) (evidence : Evidence) : M (option error) :=
  st <~ gets Pool_State ;;
  units <~ gets (fun evpool => evidenceUnits env evpool evidence) ;;
  match units with
  | inl e => ret (Some e)
  | inr (valSet, evList) => addEvidenceLoop env st valSet evidence evList
  end.

(** [evpool.removeEvidence(height, lastBlockTime, params, blockEvidenceMap)]:
    what stays in the list. *)
Definition removeEvidence (height lastBlockTime : Z) (params : EvidenceParams)
    (blockEvidenceMap : gset string) : M unit :=
  modify (fun p =>
    set_evidenceList
      (filter (fun ev =>
         let ageDuration := time_Sub lastBlockTime (Time ev) in
         let ageNumBlocks := sub64 height (Height ev) in
         (bool_decide (evMapKey ev ∈ blockEvidenceMap)
          || ((ageDuration >? MaxAgeDuration params)
              && (ageNumBlocks >? MaxAgeNumBlocks params))) = false)
        (evidenceList p)) p).

(** The first loop of MarkEvidenceAsCommitted. *)
Fixpoint markCommittedLoop (evidence : list Evidence)
    (blockEvidenceMap : gset string) : M (gset string) :=
  match evidence with
  | [] => ret blockEvidenceMap
  | ev :: rest =>
      modify (fun p => set_store (Store_MarkEvidenceAsCommitted (store p) ev) p) ;;;
      markCommittedLoop rest ({[evMapKey ev]} ∪ blockEvidenceMap)
  end.

(** [evpool.MarkEvidenceAsCommitted(height, lastBlockTime, evidence)] *)
Definition MarkEvidenceAsCommitted (height lastBlockTime : Z)
    (evidence : list Evidence) : M unit :=
  blockEvidenceMap <~ markCommittedLoop evidence ∅ ;;
  evidenceParams <~ gets (fun p => ParamsEvidence (ConsensusParams (Pool_State p))) ;;
  removeEvidence height lastBlockTime evidenceParams blockEvidenceMap.

(** The loop of cleanupValToLastHeight over the validators. *)
Definition pruneValidators (removeHeight : Z) (vals : list Validator)
    (valToLastHeight : gmap string Z) : gmap string Z :=
  foldl (fun m val =>
           match m !! ValAddress val with
           | Some h => if h =? removeHeight then delete (ValAddress val) m else m
           | None => m
           end) valToLastHeight vals.

(** [evpool.cleanupValToLastHeight(blockHeight)] *)
Definition cleanupValToLastHeight (env : Env) (blockHeight : Z) : M unit :=
  maxAge <~ gets (fun p => MaxAgeNumBlocks (ParamsEvidence (ConsensusParams (Pool_State p)))) ;;
  let removeHeight := sub64 blockHeight maxAge in
  if removeHeight >=? 1 then
    let '(valSet, err) := LoadValidators env removeHeight in
    match err with
    | Some _ =>
        match valSet with
        | None => panic nilDereference
        | Some vs =>
            modify (fun p =>
              set_valToLastHeight
                (pruneValidators removeHeight (Validators vs) (valToLastHeight p)) p)
        end
    | None => ret tt
    end
  else ret tt.

(** [evpool.Update(block, state)] *)
Definition Update (env : Env) (block : Block) (st : sm_State) : M unit :=
  if negb (LastBlockHeight st =? Block_Height block) then
    panic "Failed EvidencePool.Update sanity check"
  else
    modify (set_state st) ;;;
    MarkEvidenceAsCommitted (Block_Height block) (Block_Time block) (Block_Evidence block) ;;;
    cleanupValToLastHeight env (Block_Height block).

(** The pool an outcome leaves behind. *)
Definition outcomePool {A} (o : Outcome A) : Pool :=
  match o with
  | Done p _ => p
  | Panic p _ => p
  end.

(** The store after the committed markers of a list of evidence. *)
Definition markAllCommitted (evidence : list Evidence) (s : Store) : Store :=
  foldl Store_MarkEvidenceAsCommitted s evidence.

(** What removeEvidence takes out of the list. *)
Definition removable (height lastBlockTime : Z) (params : EvidenceParams)
    (blockEvidenceMap : gset string) (ev : Evidence) : bool :=
  bool_decide (evMapKey ev ∈ blockEvidenceMap)
  || ((time_Sub lastBlockTime (Time ev) >? MaxAgeDuration params)
      && (sub64 height (Height ev) >? MaxAgeNumBlocks params)).



(** The store after the pending records of a list of evidence are
    deleted. *)
Definition deleteAllPending (evList : list Evidence) (s : Store) : Store :=
  foldl Store_deletePending s evList.


(** The addresses of a list of validators. *)
Definition addresses (vals : list Validator) : list string := ValAddress <$> vals.

(** The type test of an error against sm.ErrNoValSetForHeight. *)
Definition isErrNoValSetForHeight (err : option error) : bool :=
  match err with
  | Some (ErrNoValSetForHeight _) => true
  | _ => false
  end.

(** The collaborators with another block store. *)
Definition withBlockStore (env : Env) (blockStore : Z -> option BlockMeta) : Env :=
  mkEnv (LoadValidators env) (LoadState env) blockStore
        (VerifyEvidence env) (VerifyComposite env) (Split env).

(** ** Concrete pools and collaborators *)

Module Scenario.

Definition alice : Validator := mkValidator "alice" 10.
Definition bob : Validator := mkValidator "bob" 30.
Definition carol : Validator := mkValidator "carol" 10.

Definition vals : ValidatorSet := mkValidatorSet [alice; bob; carol].

Definition header (h : Z) : Header := mkHeader h "block".

(** Equivocation by alice, bob and carol at height 3, and by a signer
    that is in no validator set. *)
Definition evAlice : Evidence := mkEvidence DuplicateVoteEvidence 3 300 "alice" "h-alice".
Definition evBob : Evidence := mkEvidence DuplicateVoteEvidence 3 300 "bob" "h-bob".
Definition evCarol : Evidence := mkEvidence DuplicateVoteEvidence 3 300 "carol" "h-carol".
Definition evMallory : Evidence := mkEvidence DuplicateVoteEvidence 3 300 "mallory" "h-mallory".
Definition evLunatic : Evidence := mkEvidence LunaticValidatorEvidence 3 300 "bob" "h-lunatic".

(** Conflicting headers at height 3, and the pieces they split into. *)
Definition evConflict : Evidence := mkEvidence ConflictingHeadersEvidence 3 300 "" "h-conflict".
Definition evConflict2 : Evidence := mkEvidence ConflictingHeadersEvidence 3 300 "" "h-conflict2".
Definition evConflict3 : Evidence := mkEvidence ConflictingHeadersEvidence 3 300 "" "h-conflict3".

Definition split (ev : Evidence) : list Evidence :=
  if String.eqb (Hash ev) "h-conflict" then [evAlice; evBob]
  else if String.eqb (Hash ev) "h-conflict2" then [evCarol; evMallory]
  else if String.eqb (Hash ev) "h-conflict3" then [evCarol; evLunatic]
  else [].

Definition params : EvidenceParams := mkEvidenceParams 2 100.

Definition stateAt (h t : Z) : sm_State := mkState h t (mkConsensusParams params).

(** A state database with the validator sets of heights 1 to 100, and a
    block store with all blocks. *)
Definition env : Env :=
  mkEnv (fun h => if (1 <=? h) && (h <=? 100)
                  then (Some vals, None)
                  else (None, Some (ErrNoValSetForHeight h)))
        (stateAt 4 400)
        (fun h => Some (mkBlockMeta (header h)))
        (fun _ _ _ => None)
        (fun _ _ _ => None)
        (fun ev _ _ _ => split ev).


(** As [env], but the evidence against bob does not verify. *)
Definition envStrict : Env :=
  mkEnv (LoadValidators env) (LoadState env) (LoadBlockMeta env)
        (fun _ ev _ => if String.eqb (Address ev) "bob"
                       then Some (ErrOther "invalid signature") else None)
        (VerifyComposite env) (Split env).

Definition pool0 : Pool :=
  mkPool emptyStore [] {[ "alice" := 4; "bob" := 4; "carol" := 3 ]} (stateAt 4 400).

(** The pool once alice's evidence, or carol's, has been added. *)
Definition poolAlice : Pool := outcomePool (AddEvidence env evAlice pool0).
Definition poolCarol : Pool := outcomePool (AddEvidence env evCarol pool0).

(** The pool once the block of height 5 with alice's evidence is
    committed. *)
Definition poolCommitted : Pool :=
  outcomePool (Update env (mkBlock 5 500 [evAlice]) (stateAt 5 500) poolAlice).

(** Evidence of height 1, expired in the state of height 4, and an
    evidence database found at start with four pending entries. *)
Definition evOld : Evidence := mkEvidence DuplicateVoteEvidence 1 100 "carol" "h-old".

Definition storeFound : Store :=
  mkStore [(30, evBob); (10, evAlice); (10, evOld); (10, evCarol)] ∅
          {[ "h-bob" := evBob; "h-alice" := evAlice; "h-old" := evOld;
             "h-carol" := evCarol ]}
          (fun _ => None).

Definition mapAt4 : gmap string Z :=
  default ∅ (buildValToLastHeightMap env (stateAt 4 400)).

Definition poolFound : Pool :=
  mkPool (mkStore [(30, evBob); (10, evAlice); (10, evCarol)] ∅ (outqueue storeFound)
            (fun _ => None))
         [evBob; evAlice; evCarol] mapAt4 (stateAt 4 400).

(** A pool built over an empty evidence database, and that pool once
    the conflicting headers against alice and bob are added. *)
Definition poolNew : Pool := mkPool emptyStore [] mapAt4 (stateAt 4 400).
Definition poolBoth : Pool := outcomePool (AddEvidence env evConflict poolNew).

(** A state database that keeps the validator sets of heights 3 and up
    only; carol is a validator at height 3 and no longer at height 4. *)
Definition envRecent : Env :=
  mkEnv (fun h => if h <? 3 then (None, Some (ErrNoValSetForHeight h))
                  else if h =? 3 then (Some vals, None)
                  else (Some (mkValidatorSet [alice; bob]), None))
        (stateAt 4 400)
        (fun h => Some (mkBlockMeta (header h)))
        (fun _ _ _ => None)
        (fun _ _ _ => None)
        (fun ev _ _ _ => split ev).

(** A state database whose load of height 3 fails with a set in hand. *)
Definition envFaulty : Env :=
  mkEnv (fun h => if h =? 3 then (Some (mkValidatorSet [carol]), Some (ErrOther "corrupt"))
                  else (Some vals, None))
        (stateAt 4 400)
        (fun h => Some (mkBlockMeta (header h)))
        (fun _ _ _ => None)
        (fun _ _ _ => None)
        (fun ev _ _ _ => split ev).

Definition mapRecent : gmap string Z := {[ "alice" := 4; "bob" := 4; "carol" := 3 ]}.

(** The pool after the commit, over a database whose lookups of alice's
    digest fail. *)
Definition poolFailing : Pool :=
  set_store (mkStore (pendingIndex (store poolCommitted))
                     (committedMarks (store poolCommitted))
                     (outqueue (store poolCommitted))
                     (fun h => if String.eqb h "h-alice"
                               then Some (ErrOther "i/o timeout") else None))
            poolCommitted.

End Scenario.

(** ** Arithmetic of heights and durations *)

Lemma int64_wrap_id z : - 2 ^ 63 <= z < 2 ^ 63 -> int64_wrap z = z.
Proof.
  intros Hz. unfold int64_wrap.
  rewrite Z.mod_small by lia. lia.
Qed.

Lemma sub64_nonneg a b :
  0 <= a < 2 ^ 63 -> 0 <= b < 2 ^ 63 -> sub64 a b = a - b.
Proof. intros Ha Hb. apply int64_wrap_id. lia. Qed.

Lemma time_Sub_range t u : minDuration <= time_Sub t u <= maxDuration.
Proof.
  unfold time_Sub. cbv zeta.
  destruct (Z.ltb_spec (t - u) minDuration); [unfold minDuration, maxDuration; lia|].
  destruct (Z.ltb_spec maxDuration (t - u)); [unfold minDuration, maxDuration; lia|].
  lia.
Qed.

(** ** Expiry *)

(** C1.  [IsExpired] is true exactly when the age in time exceeds
    MaxAgeDuration and the age in blocks exceeds MaxAgeNumBlocks, both
    against the state the pool holds; a unit that is too old in blocks but
    not in time is not expired. *)
Theorem IsExpired_conjunctive :
  forall (evpool : Pool) (unit : Evidence),
    let params := ParamsEvidence (ConsensusParams (state evpool)) in
    let ageDuration := time_Sub (LastBlockTime (state evpool)) (Time unit) in
    let ageNumBlocks := sub64 (LastBlockHeight (state evpool)) (Height unit) in
    (IsExpired evpool unit = true <->
       ageDuration > MaxAgeDuration params /\ ageNumBlocks > MaxAgeNumBlocks params)
    /\ (ageNumBlocks > MaxAgeNumBlocks params /\ ageDuration <= MaxAgeDuration params ->
        IsExpired evpool unit = false).
Proof.
  intros evpool unit params ageDuration ageNumBlocks.
  unfold IsExpired, Pool_State. fold params ageDuration ageNumBlocks.
  destruct (Z.gtb_spec ageNumBlocks (MaxAgeNumBlocks params)) as [Hb|Hb];
    destruct (Z.gtb_spec ageDuration (MaxAgeDuration params)) as [Hd|Hd];
    cbn; repeat split; intros; try discriminate; lia.
Qed.

(** With heights that are not negative the age in blocks is the plain
    difference, and with a time difference that fits a Duration so is the
    age in time. *)
Lemma IsExpired_plain evpool unit :
  let st := state evpool in
  let params := ParamsEvidence (ConsensusParams st) in
  0 <= LastBlockHeight st < 2 ^ 63 ->
  0 <= Height unit < 2 ^ 63 ->
  minDuration <= LastBlockTime st - Time unit <= maxDuration ->
  IsExpired evpool unit
  = ((LastBlockHeight st - Height unit >? MaxAgeNumBlocks params)
     && (LastBlockTime st - Time unit >? MaxAgeDuration params)).
Proof.
  intros st params Hh Hu Ht. unfold IsExpired, Pool_State. fold st params.
  rewrite sub64_nonneg by assumption.
  unfold time_Sub. cbv zeta.
  destruct (Z.ltb_spec (LastBlockTime st - Time unit) minDuration); [lia|].
  destruct (Z.ltb_spec maxDuration (LastBlockTime st - Time unit)); [lia|].
  reflexivity.
Qed.

(** Old in blocks, young in time: kept. *)
Example IsExpired_old_in_blocks_only :
  IsExpired (set_state (Scenario.stateAt 50 350) Scenario.pool0) Scenario.evAlice = false.
Proof. reflexivity. Qed.

Example IsExpired_old_in_both :
  IsExpired (set_state (Scenario.stateAt 50 5000) Scenario.pool0) Scenario.evAlice = true.
Proof. reflexivity. Qed.

(** ** Update *)

Lemma markCommittedLoop_spec evidence : forall blockEvidenceMap p,
  markCommittedLoop evidence blockEvidenceMap p
  = Done (set_store (markAllCommitted evidence (store p)) p)
         (list_to_set (evMapKey <$> evidence) ∪ blockEvidenceMap).
Proof.
  induction evidence as [|ev rest IH]; intros bm p.
  - cbn. unfold ret. destruct p; cbn. f_equal. set_solver.
  - cbn [markCommittedLoop]. unfold bind, modify. rewrite IH.
    destruct p; cbn. f_equal. set_solver.
Qed.

Lemma MarkEvidenceAsCommitted_spec height lastBlockTime evidence p :
  MarkEvidenceAsCommitted height lastBlockTime evidence p
  = Done (mkPool (markAllCommitted evidence (store p))
                 (filter (fun ev =>
                    removable height lastBlockTime
                      (ParamsEvidence (ConsensusParams (state p)))
                      (list_to_set (evMapKey <$> evidence)) ev = false)
                    (evidenceList p))
                 (valToLastHeight p) (state p)) tt.
Proof.
  unfold MarkEvidenceAsCommitted, bind. rewrite markCommittedLoop_spec.
  unfold gets, removeEvidence, modify, set_evidenceList, set_store, Pool_State.
  cbn. f_equal. f_equal.
  replace (list_to_set (evMapKey <$> evidence) ∪ ∅)
    with (list_to_set (C := gset string) (evMapKey <$> evidence)) by set_solver.
  reflexivity.
Qed.

(** The pool after the first two steps of Update. *)
Lemma Update_matching env block st p :
  LastBlockHeight st = Block_Height block ->
  Update env block st p
  = cleanupValToLastHeight env (Block_Height block)
      (mkPool (markAllCommitted (Block_Evidence block) (store p))
              (filter (fun ev =>
                 removable (Block_Height block) (Block_Time block)
                   (ParamsEvidence (ConsensusParams st))
                   (list_to_set (evMapKey <$> Block_Evidence block)) ev = false)
                 (evidenceList p))
              (valToLastHeight p) st).
Proof.
  intros Heq. unfold Update.
  rewrite (proj2 (Z.eqb_eq _ _) Heq). cbn [negb].
  unfold bind at 1. unfold modify at 1.
  unfold bind. rewrite MarkEvidenceAsCommitted_spec. reflexivity.
Qed.

(** cleanupValToLastHeight never touches the store, the list or the
    state. *)
Lemma cleanupValToLastHeight_frame env blockHeight p :
  let p' := outcomePool (cleanupValToLastHeight env blockHeight p) in
  store p' = store p /\ evidenceList p' = evidenceList p /\ state p' = state p.
Proof.
  unfold cleanupValToLastHeight, bind, gets.
  destruct (_ >=? 1); [|done].
  destruct (LoadValidators env _) as [[vs|] [e|]]; done.
Qed.

Lemma Update_mismatch env block st p :
  LastBlockHeight st <> Block_Height block ->
  outcomePool (Update env block st p) = p.
Proof.
  intros Hne. unfold Update.
  destruct (Z.eqb_spec (LastBlockHeight st) (Block_Height block)); [contradiction|].
  reflexivity.
Qed.

(** C4.  When the height of the new state is not the height of the block,
    Update panics at once, and the pool is as it was: same state, same
    store, same list. *)
Theorem Update_sanity_check :
  forall (env : Env) (block : Block) (st : sm_State) (evpool : Pool),
    LastBlockHeight st <> Block_Height block ->
    Update env block st evpool
    = Panic evpool "Failed EvidencePool.Update sanity check".
Proof.
  intros env block st evpool Hne. unfold Update.
  destruct (Z.eqb_spec (LastBlockHeight st) (Block_Height block)) as [Heq|_];
    [contradiction|]. reflexivity.
Qed.

Lemma Update_sanity_check_witness :
  LastBlockHeight (Scenario.stateAt 4 400) <> Block_Height (mkBlock 5 500 [Scenario.evAlice])
  /\ Update Scenario.env (mkBlock 5 500 [Scenario.evAlice]) (Scenario.stateAt 4 400)
       Scenario.pool0
     = Panic Scenario.pool0 "Failed EvidencePool.Update sanity check".
Proof.
  split; [cbn; lia|].
  apply (Update_sanity_check Scenario.env (mkBlock 5 500 [Scenario.evAlice])
           (Scenario.stateAt 4 400) Scenario.pool0).
  cbn; lia.
Defined.

(** C10.  With matching heights, when the cutoff height is below one or
    the validator set of the cutoff height loads without error, Update
    returns and the map of last heights is as before; the map changes
    only when the cutoff is at least one and the load returns an error. *)
Theorem Update_valToLastHeight_frame :
  forall (env : Env) (block : Block) (st : sm_State) (evpool : Pool),
    LastBlockHeight st = Block_Height block ->
    let removeHeight :=
      sub64 (Block_Height block) (MaxAgeNumBlocks (ParamsEvidence (ConsensusParams st))) in
    (removeHeight < 1 \/ (LoadValidators env removeHeight).2 = None ->
     exists evpool',
       Update env block st evpool = Done evpool' tt
       /\ valToLastHeight evpool' = valToLastHeight evpool)
    /\ (valToLastHeight (outcomePool (Update env block st evpool))
          <> valToLastHeight evpool ->
        1 <= removeHeight /\ is_Some (LoadValidators env removeHeight).2).
Proof.
  intros env block st evpool Heq removeHeight.
  rewrite (Update_matching _ _ _ _ Heq).
  unfold cleanupValToLastHeight, bind, gets, Pool_State. cbn [state].
  fold removeHeight.
  destruct (Z.geb_spec removeHeight 1) as [Hge|Hlt].
  - destruct (LoadValidators env removeHeight) as [valSet [e|]] eqn:Hload; cbn.
    + split.
      * intros [Hlt|Hnone]; [lia|discriminate].
      * intros _. split; [lia|eauto].
    + split.
      * intros _. eexists. split; reflexivity.
      * intros Hchg. contradiction Hchg. reflexivity.
  - split.
    + intros _. eexists. split; reflexivity.
    + intros Hchg. contradiction Hchg. reflexivity.
Qed.

Lemma Update_valToLastHeight_frame_witness :
  LastBlockHeight (Scenario.stateAt 5 500) = Block_Height (mkBlock 5 500 [Scenario.evAlice])
  /\ exists evpool',
       Update Scenario.env (mkBlock 5 500 [Scenario.evAlice]) (Scenario.stateAt 5 500)
         Scenario.pool0 = Done evpool' tt
       /\ valToLastHeight evpool' = valToLastHeight Scenario.pool0.
Proof.
  split; [reflexivity|].
  apply (proj1 (Update_valToLastHeight_frame Scenario.env
                  (mkBlock 5 500 [Scenario.evAlice]) (Scenario.stateAt 5 500)
                  Scenario.pool0 eq_refl)).
  right. reflexivity.
Defined.

(** C2.  The block of height 5 is committed with MaxAgeNumBlocks = 2, so
    the cutoff is height 3; the validator set of height 3 loads and
    contains carol, whose last height in the map is 3.  Update returns and
    carol is still in the map with height 3: the entries at the cutoff are
    pruned only under [err != nil], where the set that was to be walked is
    the one that failed to load. *)
Theorem Update_keeps_entry_at_cutoff :
  let block := mkBlock 5 500 [] in
  let st := Scenario.stateAt 5 500 in
  sub64 (Block_Height block) (MaxAgeNumBlocks (ParamsEvidence (ConsensusParams st))) = 3
  /\ LoadValidators Scenario.env 3 = (Some Scenario.vals, None)
  /\ valToLastHeight Scenario.pool0 !! "carol" = Some 3
  /\ exists evpool',
       Update Scenario.env block st Scenario.pool0 = Done evpool' tt
       /\ valToLastHeight evpool' !! "carol" = Some 3.
Proof.
  cbv zeta. split; [reflexivity|]. split; [reflexivity|]. split; [reflexivity|].
  eexists. split; [vm_compute; reflexivity|]. reflexivity.
Qed.

(** Where the load of the cutoff height fails with a nil set, which is
    what sm.LoadValidators returns with its error, the walk over the
    validators of that set panics. *)
Lemma cleanupValToLastHeight_load_error_nil env blockHeight p e :
  let removeHeight :=
    sub64 blockHeight (MaxAgeNumBlocks (ParamsEvidence (ConsensusParams (state p)))) in
  1 <= removeHeight ->
  LoadValidators env removeHeight = (None, Some e) ->
  cleanupValToLastHeight env blockHeight p = Panic p nilDereference.
Proof.
  intros removeHeight Hge Hload.
  unfold cleanupValToLastHeight, bind, gets, Pool_State. fold removeHeight.
  destruct (Z.geb_spec removeHeight 1); [|lia].
  rewrite Hload. reflexivity.
Qed.

(** ** AddEvidence *)

(** The pool a unit is accepted into. *)
Lemma AddEvidence_unfold env evidence p :
  AddEvidence env evidence p
  = match evidenceUnits env p evidence with
    | inl e => Done p (Some e)
    | inr (valSet, evList) => addEvidenceLoop env (state p) valSet evidence evList p
    end.
Proof.
  unfold AddEvidence, bind, gets, Pool_State.
  destruct (evidenceUnits env p evidence) as [e|[valSet evList]]; reflexivity.
Qed.

(** What one round of the loop can do: return an error or panic with the
    pool as it was, or store the unit with the voting power of its
    address as priority and append it to the list. *)
Lemma addEvidenceUnit_cases env st valSet evidence ev p :
  match addEvidenceUnit env st valSet evidence ev p with
  | Done p' (Some e) => p' = p
  | Done p' None =>
      exists vs val,
        valSet = Some vs
        /\ (GetByAddress vs (Address ev)).2 = Some val
        /\ Store_Has (store p) evidence = (false, None)
        /\ Store_contains (store p) ev = false
        /\ p' = mkPool (mkStore (insertPending (VotingPower val) ev (pendingIndex (store p)))
                                (committedMarks (store p))
                                (<[Hash ev := ev]> (outqueue (store p)))
                                (dbError (store p)))
                       (evidenceList p ++ [ev]) (valToLastHeight p) (state p)
  | Panic p' _ => p' = p
  end.
Proof.
  unfold addEvidenceUnit, bind, gets, ret, panic, modify.
  destruct (Store_Has (store p) evidence) as [ok [e|]] eqn:Hhas; [reflexivity|].
  destruct ok; [reflexivity|].
  destruct (fetchHeader env ev) as [header|e]; [|reflexivity].
  destruct (VerifyEvidence env st ev header); try reflexivity.
  all: destruct valSet as [vs|]; try reflexivity.
  all: destruct (GetByAddress vs (Address ev)).2 as [val|] eqn:Hget; try reflexivity.
  all: unfold Store_addEvidence.
  all: destruct (Store_contains (store p) ev) eqn:Hhas'; try reflexivity.
  all: exists vs, val; destruct p; cbn in *.
  all: repeat (split; [first [reflexivity | congruence]|]); reflexivity.
Qed.

(** What store.Has answers: the error of the database, or whether the
    digest is in the store. *)
Lemma Store_Has_cases s evidence :
  (exists e, Store_Has s evidence = (false, Some e))
  \/ Store_Has s evidence = (Store_contains s evidence, None).
Proof. unfold Store_Has. destruct (dbError s (Hash evidence)); eauto. Qed.

Lemma addEvidenceUnit_Has env st valSet evidence ev p :
  (Store_Has (store p) evidence).1 = true ->
  addEvidenceUnit env st valSet evidence ev p = Done p (Some ErrEvidenceAlreadyStored).
Proof.
  intros Hhas. unfold addEvidenceUnit, bind, gets, ret.
  destruct (Store_Has_cases (store p) evidence) as [[e E]|E];
    rewrite E in Hhas; [discriminate|]. rewrite E.
  destruct (Store_contains (store p) evidence); [reflexivity|discriminate].
Qed.

(** The loop over [pre ++ evList], once the units of [pre] are in. *)
Lemma addEvidenceLoop_app env st valSet evidence pre : forall evList p p1,
  addEvidenceLoop env st valSet evidence pre p = Done p1 None ->
  addEvidenceLoop env st valSet evidence (pre ++ evList) p
  = addEvidenceLoop env st valSet evidence evList p1.
Proof.
  induction pre as [|u pre IH]; intros evList p p1 Hpre.
  - cbn in Hpre. unfold ret in Hpre. injection Hpre as ->. reflexivity.
  - cbn [app addEvidenceLoop] in *. unfold bind in *.
    destruct (addEvidenceUnit env st valSet evidence u p) as [p' [e|]|p' msg];
      [discriminate| |discriminate].
    apply IH. exact Hpre.
Qed.

(** The loop stops at the first unit that returns an error or panics. *)
Lemma addEvidenceLoop_stop env st valSet evidence pre ev post p p1 :
  addEvidenceLoop env st valSet evidence pre p = Done p1 None ->
  addEvidenceLoop env st valSet evidence (pre ++ ev :: post) p
  = match addEvidenceUnit env st valSet evidence ev p1 with
    | Done p2 None => addEvidenceLoop env st valSet evidence post p2
    | Done p2 (Some e) => Done p2 (Some e)
    | Panic p2 msg => Panic p2 msg
    end.
Proof.
  intros Hpre. rewrite (addEvidenceLoop_app _ _ _ _ _ _ _ _ Hpre).
  cbn [addEvidenceLoop]. unfold bind.
  destruct (addEvidenceUnit env st valSet evidence ev p1) as [p2 [e|]|p2 msg]; reflexivity.
Qed.


Lemma keyEqb_pendingHas p ev x l :
  pendingHas (x :: l) (Hash ev) = false -> keyEqb p (Hash ev) x.1 (Hash x.2) = false.
Proof.
  cbn. intros Hhas. apply orb_false_iff in Hhas as [Hx _].
  unfold keyEqb. rewrite String.eqb_sym, Hx. apply andb_false_r.
Qed.

Lemma insertPending_elem p ev l e :
  pendingHas l (Hash ev) = false ->
  e ∈ insertPending p ev l <-> e = (p, ev) \/ e ∈ l.
Proof.
  induction l as [|x l IH]; intros Hhas; cbn [insertPending].
  - set_solver.
  - rewrite (keyEqb_pendingHas p ev x l Hhas).
    cbn in Hhas. apply orb_false_iff in Hhas as [_ Hl]. specialize (IH Hl).
    destruct (keyLtb _ _ _ _); set_solver.
Qed.

Lemma Store_contains_pendingHas s ev :
  Store_contains s ev = false -> pendingHas (pendingIndex s) (Hash ev) = false.
Proof.
  unfold Store_contains. intros H.
  apply orb_false_iff in H as [H _]. by apply orb_false_iff in H as [H _].
Qed.

Lemma addEvidenceUnit_grows env st valSet evidence ev p p' :
  addEvidenceUnit env st valSet evidence ev p = Done p' None ->
  (exists priority, (priority, ev) ∈ pendingIndex (store p'))
  /\ ev ∈ evidenceList p'
  /\ (forall e, e ∈ pendingIndex (store p) -> e ∈ pendingIndex (store p'))
  /\ (forall u, u ∈ evidenceList p -> u ∈ evidenceList p').
Proof.
  intros Hstep. pose proof (addEvidenceUnit_cases env st valSet evidence ev p) as Hc.
  rewrite Hstep in Hc. destruct Hc as (vs & val & _ & _ & _ & Hnew & ->). cbn.
  apply Store_contains_pendingHas in Hnew.
  split; [exists (VotingPower val); apply insertPending_elem; [done|by left]|].
  split; [set_solver|].
  split; [intros e He; apply insertPending_elem; [done|by right]|set_solver].
Qed.

Lemma addEvidenceLoop_grows env st valSet evidence evList : forall p p',
  addEvidenceLoop env st valSet evidence evList p = Done p' None ->
  (forall u, u ∈ evList ->
     (exists priority, (priority, u) ∈ pendingIndex (store p')) /\ u ∈ evidenceList p')
  /\ (forall e, e ∈ pendingIndex (store p) -> e ∈ pendingIndex (store p'))
  /\ (forall u, u ∈ evidenceList p -> u ∈ evidenceList p').
Proof.
  induction evList as [|ev rest IH]; intros p p' Hloop.
  - cbn in Hloop. unfold ret in Hloop. injection Hloop as ->.
    split; [intros u Hu; inversion Hu|done].
  - cbn [addEvidenceLoop] in Hloop. unfold bind in Hloop.
    destruct (addEvidenceUnit env st valSet evidence ev p) as [p1 [e|]|p1 msg] eqn:Hstep;
      [discriminate| |discriminate].
    destruct (addEvidenceUnit_grows _ _ _ _ _ _ _ Hstep) as ([q Hq] & Hl & Hpend & Hlist).
    destruct (IH _ _ Hloop) as (Hrest & Hpend' & Hlist').
    split; [|split; eauto].
    intros u Hu. apply elem_of_cons in Hu as [->|Hu]; [|by apply Hrest].
    split; [exists q|]; eauto.
Qed.

Lemma evidenceUnits_valSet env evpool evidence valSet evList :
  evidenceUnits env evpool evidence = inr (valSet, evList) ->
  LoadValidators env (Height evidence) = (valSet, None).
Proof.
  unfold evidenceUnits.
  destruct (LoadValidators env (Height evidence)) as [vs [e|]]; [discriminate|].
  destruct (isCompositeEvidence evidence).
  - destruct (LoadBlockMeta env (Height evidence)) as [bm|]; [|discriminate].
    destruct (VerifyComposite env evidence _ vs); [discriminate|].
    intros [= -> _]. reflexivity.
  - intros [= -> _]. reflexivity.
Qed.




(** C3.  alice's evidence is pending.  Conflicting headers that split
    into alice's evidence and bob's are submitted: the loop asks the store
    for the digest of the submitted evidence, not for the digest of the
    unit, so alice's unit is not answered with already-stored; it is
    verified again and refused by the store only, as a database error. *)
Theorem AddEvidence_split_unit_not_already_stored :
  exists pool1,
    AddEvidence Scenario.env Scenario.evAlice Scenario.pool0 = Done pool1 None
    /\ PendingEvidence pool1 (-1) = [Scenario.evAlice]
    /\ evidenceUnits Scenario.env pool1 Scenario.evConflict
       = inr (Some Scenario.vals, [Scenario.evAlice; Scenario.evBob])
    /\ (Store_Has (store pool1) Scenario.evAlice).1 = true
    /\ (Store_Has (store pool1) Scenario.evConflict).1 = false
    /\ AddEvidence Scenario.env Scenario.evConflict pool1
       = Done pool1 (Some (ErrDatabase (ErrOther "evidence already in the store"))).
Proof.
  eexists. split; [vm_compute; reflexivity|].
  repeat split; vm_compute; reflexivity.
Qed.

(** C8.  When the units before [unit] have gone through and [unit]
    returns an error, AddEvidence returns that error at once; the pool is
    the one the earlier units left, and each of them is in the pending
    index and in the list. *)
Theorem AddEvidence_no_rollback :
  forall (env : Env) (evidence : Evidence) (evpool : Pool)
         (valSet : option ValidatorSet) (earlier : list Evidence) (unit : Evidence)
         (later : list Evidence) (p1 p1' : Pool) (err : error),
    evidenceUnits env evpool evidence = inr (valSet, earlier ++ unit :: later) ->
    addEvidenceLoop env (state evpool) valSet evidence earlier evpool = Done p1 None ->
    addEvidenceUnit env (state evpool) valSet evidence unit p1 = Done p1' (Some err) ->
    AddEvidence env evidence evpool = Done p1 (Some err)
    /\ p1' = p1
    /\ forall u, u ∈ earlier ->
         u ∈ PendingEvidence p1 (-1) /\ u ∈ evidenceList p1.
Proof.
  intros env evidence evpool valSet earlier unit later p1 p1' err Hunits Hpre Hfail.
  pose proof (addEvidenceUnit_cases env (state evpool) valSet evidence unit p1) as Hc.
  rewrite Hfail in Hc. subst p1'.
  split; [|split; [reflexivity|]].
  - rewrite AddEvidence_unfold, Hunits.
    rewrite (addEvidenceLoop_stop _ _ _ _ _ _ _ _ _ Hpre), Hfail. reflexivity.
  - intros u Hu.
    destruct (addEvidenceLoop_grows _ _ _ _ _ _ _ Hpre) as (Hin & _ & _).
    destruct (Hin u Hu) as ([q Hq] & Hl). split; [|exact Hl].
    unfold PendingEvidence, Store_PendingEvidence, Store_listEvidence. cbn.
    apply list_elem_of_fmap. exists (q, u). split; [reflexivity|exact Hq].
Qed.

Lemma AddEvidence_no_rollback_witness :
  AddEvidence Scenario.envStrict Scenario.evConflict Scenario.pool0
  = Done Scenario.poolAlice
      (Some (Errorf_failedToVerify Scenario.evBob (ErrOther "invalid signature")))
  /\ Scenario.evAlice ∈ PendingEvidence Scenario.poolAlice (-1)
  /\ Scenario.evAlice ∈ evidenceList Scenario.poolAlice.
Proof.
  destruct (AddEvidence_no_rollback Scenario.envStrict Scenario.evConflict Scenario.pool0
              (Some Scenario.vals) [Scenario.evAlice] Scenario.evBob []
              Scenario.poolAlice Scenario.poolAlice
              (Errorf_failedToVerify Scenario.evBob (ErrOther "invalid signature")))
    as (Hret & _ & Hearlier); [vm_compute; reflexivity ..|].
  split; [exact Hret|]. apply Hearlier. constructor.
Defined.

(** C9.  For a unit that is reached by the loop and passes verification,
    the priority is read from the validator that GetByAddress finds for
    the unit's address in the set loaded at the height of the submitted
    evidence.  When there is none the read is that of a nil pointer and
    AddEvidence panics; when there is one the round does not panic. *)
Theorem AddEvidence_priority_needs_validator :
  forall (env : Env) (evidence : Evidence) (evpool : Pool)
         (valSet : ValidatorSet) (earlier : list Evidence) (unit : Evidence)
         (later : list Evidence) (p1 : Pool) (header : option Header),
    evidenceUnits env evpool evidence = inr (Some valSet, earlier ++ unit :: later) ->
    addEvidenceLoop env (state evpool) (Some valSet) evidence earlier evpool = Done p1 None ->
    Store_Has (store p1) evidence = (false, None) ->
    fetchHeader env unit = inl header ->
    VerifyEvidence env (state evpool) unit header = None ->
    LoadValidators env (Height evidence) = (Some valSet, None)
    /\ ((GetByAddress valSet (Address unit)).2 = None ->
        AddEvidence env evidence evpool = Panic p1 nilDereference)
    /\ (forall val, (GetByAddress valSet (Address unit)).2 = Some val ->
        exists p2 r,
          addEvidenceUnit env (state evpool) (Some valSet) evidence unit p1 = Done p2 r).
Proof.
  intros env evidence evpool valSet earlier unit later p1 header
         Hunits Hpre Hhas Hfetch Hverify.
  split; [exact (evidenceUnits_valSet _ _ _ _ _ Hunits)|].
  assert (Hstep : addEvidenceUnit env (state evpool) (Some valSet) evidence unit p1
                  = match (GetByAddress valSet (Address unit)).2 with
                    | None => Panic p1 nilDereference
                    | Some val =>
                        addEvidenceUnit env (state evpool) (Some valSet) evidence unit p1
                    end).
  { destruct (GetByAddress valSet (Address unit)).2 eqn:Hget; [reflexivity|].
    unfold addEvidenceUnit, bind, gets.
    rewrite Hhas, Hfetch, Hverify, Hget. reflexivity. }
  split.
  - intros Hnone. rewrite AddEvidence_unfold, Hunits.
    rewrite (addEvidenceLoop_stop _ _ _ _ _ _ _ _ _ Hpre), Hstep, Hnone. reflexivity.
  - intros val Hval.
    unfold addEvidenceUnit, bind, gets.
    rewrite Hhas, Hfetch, Hverify, Hval.
    destruct (Store_addEvidence (store p1) unit (VotingPower val)) as [s' [e|]];
      unfold ret, modify; eauto.
Qed.

Lemma AddEvidence_priority_needs_validator_witness :
  (GetByAddress Scenario.vals (Address Scenario.evMallory)).2 = None
  /\ AddEvidence Scenario.env Scenario.evConflict2 Scenario.pool0
     = Panic Scenario.poolCarol nilDereference.
Proof.
  split; [reflexivity|].
  apply (AddEvidence_priority_needs_validator Scenario.env Scenario.evConflict2
           Scenario.pool0 Scenario.vals [Scenario.evCarol] Scenario.evMallory []
           Scenario.poolCarol None);
    vm_compute; reflexivity.
Defined.

(** ** Committed evidence *)

Lemma removePending_elem h l e :
  e ∈ removePending h l <-> e ∈ l /\ Hash e.2 ≠ h.
Proof. unfold removePending. rewrite list_elem_of_filter. tauto. Qed.







(** Over a database whose lookup of the digest fails, the committed
    evidence submitted again is answered with the database error. *)
Example AddEvidence_Has_error :
  AddEvidence Scenario.env Scenario.evAlice Scenario.poolFailing
  = Done Scenario.poolFailing (Some (ErrDatabase (ErrOther "i/o timeout"))).
Proof. vm_compute. reflexivity. Qed.


(** ** NewPool *)

Lemma IsExpired_state p p' ev : state p = state p' -> IsExpired p ev = IsExpired p' ev.
Proof. unfold IsExpired, Pool_State. by intros ->. Qed.

Lemma filter_IsExpired_state p p' b (l : list Evidence) :
  state p = state p' ->
  filter (fun ev => IsExpired p ev = b) l = filter (fun ev => IsExpired p' ev = b) l.
Proof.
  intros Hst. apply list_filter_iff. intros ev. by rewrite (IsExpired_state p p').
Qed.

Lemma loadPending_spec evList : forall pool,
  loadPending evList pool
  = mkPool (deleteAllPending (filter (fun ev => IsExpired pool ev = true) evList) (store pool))
           (evidenceList pool ++ filter (fun ev => IsExpired pool ev = false) evList)
           (valToLastHeight pool) (state pool).
Proof.
  unfold deleteAllPending.
  induction evList as [|ev rest IH]; intros pool.
  - cbn. rewrite app_nil_r. by destruct pool.
  - cbn [loadPending]. rewrite !filter_cons.
    destruct (IsExpired pool ev) eqn:Hexp; rewrite IH.
    + rewrite decide_True by reflexivity. rewrite decide_False by discriminate.
      rewrite (filter_IsExpired_state _ pool true) by reflexivity.
      rewrite (filter_IsExpired_state _ pool false) by reflexivity.
      reflexivity.
    + rewrite decide_False by discriminate. rewrite decide_True by reflexivity.
      rewrite (filter_IsExpired_state _ pool true) by reflexivity.
      rewrite (filter_IsExpired_state _ pool false) by reflexivity.
      cbn. rewrite <- app_assoc. reflexivity.
Qed.

Lemma deleteAllPending_pending evList : forall s e,
  e ∈ pendingIndex (deleteAllPending evList s)
  <-> e ∈ pendingIndex s /\ forall ev, ev ∈ evList -> Hash e.2 ≠ Hash ev.
Proof.
  unfold deleteAllPending.
  induction evList as [|ev rest IH]; intros s e; cbn [foldl].
  - split; [intros He; split; [exact He|intros ev Hev; inversion Hev]|tauto].
  - rewrite IH. cbn. rewrite removePending_elem. split.
    + intros [[He Hne] Hrest]. split; [exact He|]. intros u Hu.
      apply elem_of_cons in Hu as [->|Hu]; [exact Hne|by apply Hrest].
    + intros [He Hall]. split; [split; [exact He|]|].
      * apply Hall. constructor.
      * intros u Hu. apply Hall. by constructor.
Qed.

Lemma deleteAllPending_others evList s :
  committedMarks (deleteAllPending evList s) = committedMarks s
  /\ outqueue (deleteAllPending evList s) = outqueue s.
Proof.
  unfold deleteAllPending. revert s.
  induction evList as [|ev rest IH]; intros s; cbn [foldl]; [done|].
  destruct (IH (Store_deletePending s ev)) as [-> ->]. done.
Qed.

(** Building the map of validators returns whenever the state database
    hands back a nil set only together with ErrNoValSetForHeight, as
    sm.LoadValidators does. *)
Lemma buildValToLastHeightLoop_returns env params :
  (forall h, (LoadValidators env h).1 = None ->
             exists h', (LoadValidators env h).2 = Some (ErrNoValSetForHeight h')) ->
  forall height numBlocks m,
    is_Some (buildValToLastHeightLoop env params height numBlocks m).
Proof.
  intros Hnil height.
  induction height as [|height IH]; intros numBlocks m; [by eexists|].
  cbn [buildValToLastHeightLoop].
  destruct (numBlocks <=? MaxAgeNumBlocks params); [|by eexists].
  pose proof (Hnil (Z.of_nat (S height))) as Hh.
  destruct (LoadValidators env (Z.of_nat (S height))) as [[vs|] err]; cbn in Hh.
  - destruct err as [[]|]; first [by eexists | apply IH].
  - destruct (Hh eq_refl) as [h' ->]. by eexists.
Qed.

(** X5.  buildValToLastHeightMap does not panic when the state database
    hands back a nil set only together with ErrNoValSetForHeight. *)
Lemma buildValToLastHeightMap_returns env st :
  (forall h, (LoadValidators env h).1 = None ->
             exists h', (LoadValidators env h).2 = Some (ErrNoValSetForHeight h')) ->
  is_Some (buildValToLastHeightMap env st).
Proof. intros Hnil. by apply buildValToLastHeightLoop_returns. Qed.

Example buildValToLastHeightMap_at_4 :
  buildValToLastHeightMap Scenario.env (Scenario.stateAt 4 400)
  = Some {[ "alice" := 4; "bob" := 4; "carol" := 4 ]}.
Proof. vm_compute. reflexivity. Qed.

(** C6.  Where building the map of validators does not panic, NewPool
    returns a pool that holds the loaded state; its list is the pending
    evidence of the database that is not expired in that state, in the
    order of the pending index; and the pending index it leaves is the
    one of the database without the records that have the digest of an
    expired pending entry. *)
Theorem NewPool_loads_pending :
  forall (env : Env) (evidenceDB : Store) (m : gmap string Z),
    buildValToLastHeightMap env (LoadState env) = Some m ->
    exists pool,
      NewPool env evidenceDB = Some pool
      /\ state pool = LoadState env
      /\ evidenceList pool
         = filter (fun ev => IsExpired pool ev = false) (snd <$> pendingIndex evidenceDB)
      /\ (forall ev, ev ∈ evidenceList pool -> IsExpired pool ev = false)
      /\ (forall e, e ∈ pendingIndex (store pool)
            <-> e ∈ pendingIndex evidenceDB
                /\ forall ev, ev ∈ snd <$> pendingIndex evidenceDB ->
                     IsExpired pool ev = true -> Hash e.2 ≠ Hash ev).
Proof.
  intros env evidenceDB m Hmap. unfold NewPool. rewrite Hmap.
  eexists. split; [reflexivity|].
  rewrite loadPending_spec. cbn [state evidenceList store app].
  unfold Store_listEvidence. cbn [Z.ltb Z.compare].
  set (pool0 := mkPool evidenceDB [] m (LoadState env)).
  set (pool := mkPool (deleteAllPending _ _) _ _ _).
  assert (Hexp : forall ev, IsExpired pool0 ev = IsExpired pool ev)
    by (intros ev; by apply IsExpired_state).
  split; [reflexivity|]. split; [|split].
  - apply list_filter_iff. intros ev. by rewrite Hexp.
  - intros ev Hev. apply list_elem_of_filter in Hev as [Hev _]. by rewrite <- Hexp.
  - intros e. rewrite deleteAllPending_pending. split.
    + intros [He Hall]. split; [exact He|]. intros ev Hev Hx.
      apply Hall. apply list_elem_of_filter. by rewrite Hexp.
    + intros [He Hall]. split; [exact He|]. intros ev Hev.
      apply list_elem_of_filter in Hev as [Hx Hev]. apply Hall; [exact Hev|].
      by rewrite <- Hexp.
Qed.

Lemma NewPool_loads_pending_witness :
  NewPool Scenario.env Scenario.storeFound = Some Scenario.poolFound
  /\ IsExpired Scenario.poolFound Scenario.evOld = true
  /\ evidenceList Scenario.poolFound
     = filter (fun ev => IsExpired Scenario.poolFound ev = false)
         (snd <$> pendingIndex Scenario.storeFound).
Proof.
  destruct (NewPool_loads_pending Scenario.env Scenario.storeFound Scenario.mapAt4)
    as (pool & Hnew & _ & Hlist & _); [vm_compute; reflexivity|].
  assert (Some pool = Some Scenario.poolFound) as [= ->]
    by (rewrite <- Hnew; vm_compute; reflexivity).
  split; [exact Hnew|]. split; [reflexivity|exact Hlist].
Defined.

(** ** The order of pending evidence *)

























(** ** The map of validators built at start *)

Lemma recordValidators_lookup height vals : forall (m : gmap string Z) k,
  recordValidators height vals m !! k
  = match m !! k with
    | Some h => Some h
    | None => if bool_decide (k ∈ addresses vals) then Some height else None
    end.
Proof.
  unfold recordValidators, addresses.
  induction vals as [|val rest IH]; intros m k; cbn [foldl fmap list_fmap].
  - destruct (m !! k); [done|]. rewrite bool_decide_eq_false_2; [done|]. set_solver.
  - rewrite IH. destruct (m !! ValAddress val) as [x|] eqn:Hval.
    + destruct (m !! k) as [h|] eqn:Hk; [done|].
      assert (k ≠ ValAddress val) by congruence.
      apply (f_equal (fun b : bool => if b then Some height else None)).
      apply bool_decide_ext. set_solver.
    + destruct (decide (k = ValAddress val)) as [->|Hne].
      * rewrite lookup_insert_eq, Hval.
        rewrite (bool_decide_eq_true_2 (ValAddress val ∈ _ :: _)); [done|set_solver].
      * rewrite lookup_insert_ne by done.
        destruct (m !! k) as [h|]; [done|].
        apply (f_equal (fun b : bool => if b then Some height else None)).
        apply bool_decide_ext. set_solver.
Qed.

(** What the loop adds to the map it starts from: an entry of height [h]
    for an address means that every height from [h] up to the start was
    scanned with a set and without ErrNoValSetForHeight, that the address
    is in the set of [h] and in none of the sets above it, and that [h] is
    no more than MaxAgeNumBlocks rounds away. *)
Lemma buildValToLastHeightLoop_entries env params : forall height numBlocks m0 m,
  buildValToLastHeightLoop env params height numBlocks m0 = Some m ->
  forall a h,
    m !! a = Some h ->
    m0 !! a = Some h
    \/ (m0 !! a = None
        /\ 1 <= h <= Z.of_nat height
        /\ numBlocks + (Z.of_nat height - h) <= MaxAgeNumBlocks params
        /\ (exists vs, (LoadValidators env h).1 = Some vs /\ a ∈ addresses (Validators vs))
        /\ (forall h', h <= h' <= Z.of_nat height ->
              isErrNoValSetForHeight (LoadValidators env h').2 = false)
        /\ (forall h' vs', h < h' <= Z.of_nat height ->
              (LoadValidators env h').1 = Some vs' -> a ∉ addresses (Validators vs'))).
Proof.
  induction height as [|height IH]; intros numBlocks m0 m Hloop a h Hm.
  - cbn in Hloop. injection Hloop as <-. by left.
  - cbn [buildValToLastHeightLoop] in Hloop.
    destruct (Z.leb_spec numBlocks (MaxAgeNumBlocks params)) as [Hk|Hk];
      [|injection Hloop as <-; by left].
    destruct (LoadValidators env (Z.of_nat (S height))) as [valSet err] eqn:Hload.
    assert (Hcase : isErrNoValSetForHeight err = true /\ m = m0
                    \/ isErrNoValSetForHeight err = false
                       /\ exists vs, valSet = Some vs
                          /\ buildValToLastHeightLoop env params height (numBlocks + 1)
                               (recordValidators (Z.of_nat (S height)) (Validators vs) m0)
                             = Some m).
    { destruct err as [[]|]; cbn;
        first [left; split; [done|congruence]
              | right; split; [done|]; destruct valSet as [vs|]; [eauto|discriminate]]. }
    destruct Hcase as [[_ ->]|(Herr & vs & -> & Hrec)]; [by left|].
    destruct (IH _ _ _ Hrec a h Hm) as [Hin|(Hnone & Hh & Hage & Hval & Hscan & Habove)].
    + rewrite recordValidators_lookup in Hin.
      destruct (m0 !! a) as [x|] eqn:Hm0; [left; congruence|].
      destruct (bool_decide_reflect (a ∈ addresses (Validators vs))) as [Ha|Ha];
        [|discriminate].
      injection Hin as <-. right. split; [done|]. split; [lia|]. split; [lia|].
      split; [exists vs; by rewrite Hload|]. split.
      * intros h' Hh'. assert (h' = Z.of_nat (S height)) as -> by lia. by rewrite Hload.
      * intros h' vs' Hh'. lia.
    + rewrite recordValidators_lookup in Hnone.
      destruct (m0 !! a) as [x|] eqn:Hm0; [discriminate|].
      destruct (bool_decide_reflect (a ∈ addresses (Validators vs))) as [Ha|Ha];
        [discriminate|].
      right. split; [done|]. split; [lia|]. split; [lia|]. split; [exact Hval|]. split.
      * intros h' Hh'. destruct (decide (h' = Z.of_nat (S height))) as [->|Hne].
        -- by rewrite Hload.
        -- apply Hscan. lia.
      * intros h' vs' Hh' Hvs'. destruct (decide (h' = Z.of_nat (S height))) as [->|Hne].
        -- rewrite Hload in Hvs'. cbn in Hvs'. by injection Hvs' as <-.
        -- apply (Habove h' vs'); [lia|exact Hvs'].
Qed.

(** The loop never drops or changes an entry. *)
Lemma buildValToLastHeightLoop_keeps env params : forall height numBlocks m0 m a h,
  buildValToLastHeightLoop env params height numBlocks m0 = Some m ->
  m0 !! a = Some h -> m !! a = Some h.
Proof.
  induction height as [|height IH]; intros numBlocks m0 m a h Hloop Hm0.
  - cbn in Hloop. by injection Hloop as <-.
  - cbn [buildValToLastHeightLoop] in Hloop.
    destruct (numBlocks <=? MaxAgeNumBlocks params); [|by injection Hloop as <-].
    destruct (LoadValidators env (Z.of_nat (S height))) as [valSet err].
    assert (Hcase : m = m0
                    \/ exists vs,
                         buildValToLastHeightLoop env params height (numBlocks + 1)
                           (recordValidators (Z.of_nat (S height)) (Validators vs) m0)
                         = Some m).
    { destruct err as [[]|];
        first [left; congruence | right; destruct valSet as [vs|]; [eauto|discriminate]]. }
    destruct Hcase as [->|[vs Hrec]]; [done|].
    eapply IH; [exact Hrec|]. by rewrite recordValidators_lookup, Hm0.
Qed.

Lemma buildValToLastHeightLoop_complete env params : forall height numBlocks m0 m,
  buildValToLastHeightLoop env params height numBlocks m0 = Some m ->
  forall h vs a,
    1 <= h <= Z.of_nat height ->
    numBlocks + (Z.of_nat height - h) <= MaxAgeNumBlocks params ->
    (forall h', h <= h' <= Z.of_nat height ->
       isErrNoValSetForHeight (LoadValidators env h').2 = false) ->
    (LoadValidators env h).1 = Some vs ->
    a ∈ addresses (Validators vs) ->
    exists x, m !! a = Some x /\ (m0 !! a = None -> h <= x <= Z.of_nat height).
Proof.
  induction height as [|height IH];
    intros numBlocks m0 m Hloop h vs a Hh Hage Hscan Hvs Ha; [lia|].
  cbn [buildValToLastHeightLoop] in Hloop.
  destruct (Z.leb_spec numBlocks (MaxAgeNumBlocks params)) as [Hk|Hk]; [|lia].
  pose proof (Hscan (Z.of_nat (S height)) ltac:(lia)) as Htop.
  destruct (LoadValidators env (Z.of_nat (S height))) as [valSet err] eqn:Hload.
  cbn in Htop.
  assert (Hrec : exists vs0, valSet = Some vs0
            /\ buildValToLastHeightLoop env params height (numBlocks + 1)
                 (recordValidators (Z.of_nat (S height)) (Validators vs0) m0) = Some m).
  { destruct err as [[]|]; try discriminate;
      (destruct valSet as [vs0|]; [eauto|discriminate]). }
  destruct Hrec as (vs0 & -> & Hrec).
  destruct (decide (h = Z.of_nat (S height))) as [->|Hne].
  - rewrite Hload in Hvs. cbn in Hvs. injection Hvs as ->.
    pose proof (recordValidators_lookup (Z.of_nat (S height)) (Validators vs) m0 a) as Hl.
    rewrite (bool_decide_eq_true_2 _ Ha) in Hl.
    destruct (m0 !! a) as [x|] eqn:Hm0.
    + exists x. split; [|discriminate].
      by apply (buildValToLastHeightLoop_keeps _ _ _ _ _ _ _ _ Hrec).
    + exists (Z.of_nat (S height)). split; [|lia].
      by apply (buildValToLastHeightLoop_keeps _ _ _ _ _ _ _ _ Hrec).
  - destruct (IH _ _ _ Hrec h vs a) as (x & Hx & Hrange);
      [lia|lia|intros h' Hh'; apply Hscan; lia|exact Hvs|exact Ha|].
    exists x. split; [exact Hx|]. intros Hm0.
    pose proof (recordValidators_lookup (Z.of_nat (S height)) (Validators vs0) m0 a) as Hl.
    rewrite Hm0 in Hl.
    destruct (bool_decide (a ∈ addresses (Validators vs0))).
    + pose proof (buildValToLastHeightLoop_keeps _ _ _ _ _ _ _ _ Hrec Hl) as Hx'.
      rewrite Hx in Hx'. injection Hx' as ->. lia.
    + specialize (Hrange Hl). lia.
Qed.

(** X1.  Every height recorded by buildValToLastHeightMap is at least 1,
    at most the last block height, and at most MaxAgeNumBlocks below
    it. *)
Theorem buildValToLastHeightMap_window :
  forall (env : Env) (st : sm_State) (m : gmap string Z) (a : string) (h : Z),
    buildValToLastHeightMap env st = Some m ->
    m !! a = Some h ->
    1 <= h <= LastBlockHeight st
    /\ LastBlockHeight st - h <= MaxAgeNumBlocks (ParamsEvidence (ConsensusParams st)).
Proof.
  intros env st m a h Hbuild Hm. unfold buildValToLastHeightMap in Hbuild.
  destruct (buildValToLastHeightLoop_entries _ _ _ _ _ _ Hbuild a h Hm)
    as [Hempty|(_ & Hh & Hage & _)]; [by rewrite lookup_empty in Hempty|].
  assert (Z.of_nat (Z.to_nat (LastBlockHeight st)) = LastBlockHeight st) as Hid
    by (apply Z2Nat.id; lia).
  rewrite Hid in *. lia.
Qed.

Lemma buildValToLastHeightMap_window_witness :
  1 <= 3 <= LastBlockHeight (Scenario.stateAt 4 400)
  /\ LastBlockHeight (Scenario.stateAt 4 400) - 3
     <= MaxAgeNumBlocks (ParamsEvidence (ConsensusParams (Scenario.stateAt 4 400))).
Proof.
  apply (buildValToLastHeightMap_window Scenario.envRecent (Scenario.stateAt 4 400)
           Scenario.mapRecent "carol" 3); vm_compute; reflexivity.
Defined.

(** X2.  The height recorded for an address is the most recent one at
    which it was a validator: the address is in the validator set loaded
    at that height and in none of the sets loaded at the heights above it,
    up to the last block height. *)
Theorem buildValToLastHeightMap_most_recent :
  forall (env : Env) (st : sm_State) (m : gmap string Z) (a : string) (h : Z),
    buildValToLastHeightMap env st = Some m ->
    m !! a = Some h ->
    (exists vs, (LoadValidators env h).1 = Some vs /\ a ∈ addresses (Validators vs))
    /\ (forall h' vs', h < h' <= LastBlockHeight st ->
          (LoadValidators env h').1 = Some vs' -> a ∉ addresses (Validators vs')).
Proof.
  intros env st m a h Hbuild Hm. unfold buildValToLastHeightMap in Hbuild.
  destruct (buildValToLastHeightLoop_entries _ _ _ _ _ _ Hbuild a h Hm)
    as [Hempty|(_ & Hh & _ & Hval & _ & Habove)]; [by rewrite lookup_empty in Hempty|].
  split; [exact Hval|]. intros h' vs' Hh'. apply Habove.
  rewrite Z2Nat.id by lia. exact Hh'.
Qed.

Lemma buildValToLastHeightMap_most_recent_witness :
  (exists vs, (LoadValidators Scenario.envRecent 3).1 = Some vs
              /\ "carol" ∈ addresses (Validators vs))
  /\ (forall h' vs', 3 < h' <= LastBlockHeight (Scenario.stateAt 4 400) ->
        (LoadValidators Scenario.envRecent h').1 = Some vs' ->
        "carol" ∉ addresses (Validators vs')).
Proof.
  apply (buildValToLastHeightMap_most_recent Scenario.envRecent (Scenario.stateAt 4 400)
           Scenario.mapRecent "carol" 3); vm_compute; reflexivity.
Defined.

(** X3.  Every validator of a set inside the scanned window is in the map:
    when the heights from [h] up to the last block height all load
    without ErrNoValSetForHeight and [h] is at most MaxAgeNumBlocks below
    the last block height, each address of the set of [h] has an entry,
    of a height between [h] and the last block height. *)
Theorem buildValToLastHeightMap_complete :
  forall (env : Env) (st : sm_State) (m : gmap string Z) (h : Z)
         (vs : ValidatorSet) (a : string),
    buildValToLastHeightMap env st = Some m ->
    1 <= h <= LastBlockHeight st ->
    LastBlockHeight st - h <= MaxAgeNumBlocks (ParamsEvidence (ConsensusParams st)) ->
    (forall h', h <= h' <= LastBlockHeight st ->
       isErrNoValSetForHeight (LoadValidators env h').2 = false) ->
    (LoadValidators env h).1 = Some vs ->
    a ∈ addresses (Validators vs) ->
    exists x, m !! a = Some x /\ h <= x <= LastBlockHeight st.
Proof.
  intros env st m h vs a Hbuild Hh Hage Hscan Hvs Ha.
  unfold buildValToLastHeightMap in Hbuild.
  assert (Z.of_nat (Z.to_nat (LastBlockHeight st)) = LastBlockHeight st) as Hid
    by (apply Z2Nat.id; lia).
  pose proof (buildValToLastHeightLoop_complete _ _ _ _ _ _ Hbuild h vs a) as Hc.
  rewrite Hid in Hc.
  destruct (Hc Hh ltac:(lia) Hscan Hvs Ha) as (x & Hx & Hrange).
  exists x. split; [exact Hx|]. apply Hrange, lookup_empty.
Qed.

Lemma buildValToLastHeightMap_complete_witness :
  exists x, Scenario.mapRecent !! "carol" = Some x
            /\ 3 <= x <= LastBlockHeight (Scenario.stateAt 4 400).
Proof.
  apply (buildValToLastHeightMap_complete Scenario.envRecent (Scenario.stateAt 4 400)
           Scenario.mapRecent 3 Scenario.vals "carol").
  - vm_compute. reflexivity.
  - cbn. lia.
  - cbn. lia.
  - intros h' Hh'. cbn in Hh'.
    assert (h' = 3 \/ h' = 4) as [-> | ->] by lia; reflexivity.
  - reflexivity.
  - vm_compute. do 2 right. left.
Defined.

(** X4.  The scan stops at the first height whose load returns
    ErrNoValSetForHeight: no recorded height is at or below it. *)
Theorem buildValToLastHeightMap_stops_at_missing :
  forall (env : Env) (st : sm_State) (m : gmap string Z) (h0 : Z) (a : string) (h : Z),
    buildValToLastHeightMap env st = Some m ->
    h0 <= LastBlockHeight st ->
    isErrNoValSetForHeight (LoadValidators env h0).2 = true ->
    m !! a = Some h ->
    h0 < h.
Proof.
  intros env st m h0 a h Hbuild Hh0 Hmiss Hm. unfold buildValToLastHeightMap in Hbuild.
  destruct (buildValToLastHeightLoop_entries _ _ _ _ _ _ Hbuild a h Hm)
    as [Hempty|(_ & Hh & _ & _ & Hscan & _)]; [by rewrite lookup_empty in Hempty|].
  destruct (Z.lt_ge_cases h0 h) as [Hlt|Hge]; [exact Hlt|exfalso].
  specialize (Hscan h0). rewrite Z2Nat.id in Hscan by lia.
  rewrite Hscan in Hmiss by lia. discriminate.
Qed.

Lemma buildValToLastHeightMap_stops_at_missing_witness : 2 < 3.
Proof.
  apply (buildValToLastHeightMap_stops_at_missing Scenario.envRecent
           (Scenario.stateAt 4 400) Scenario.mapRecent 2 "carol" 3);
    first [vm_compute; reflexivity | cbn; lia].
Defined.

(** X6.  With a last block height below 1, a negative MaxAgeNumBlocks, or
    no validator set stored for the last block height, the map built is
    empty. *)
Theorem buildValToLastHeightMap_empty :
  forall (env : Env) (st : sm_State),
    LastBlockHeight st < 1
    \/ MaxAgeNumBlocks (ParamsEvidence (ConsensusParams st)) < 0
    \/ isErrNoValSetForHeight (LoadValidators env (LastBlockHeight st)).2 = true ->
    buildValToLastHeightMap env st = Some ∅.
Proof.
  intros env st Hedge. unfold buildValToLastHeightMap.
  destruct (Z.to_nat (LastBlockHeight st)) as [|n] eqn:Hn; [reflexivity|].
  assert (Z.of_nat (S n) = LastBlockHeight st) as Hid by lia.
  cbn [buildValToLastHeightLoop]. rewrite Hid.
  destruct Hedge as [Hlow|[Hneg|Hmiss]]; [lia| |].
  - destruct (Z.leb_spec 0 (MaxAgeNumBlocks (ParamsEvidence (ConsensusParams st))));
      [lia|reflexivity].
  - destruct (0 <=? _); [|reflexivity].
    destruct (LoadValidators env (LastBlockHeight st)) as [valSet [[]|]];
      first [reflexivity | discriminate].
Qed.

Lemma buildValToLastHeightMap_empty_witness :
  buildValToLastHeightMap Scenario.envRecent (Scenario.stateAt 2 200) = Some ∅.
Proof.
  apply (buildValToLastHeightMap_empty Scenario.envRecent (Scenario.stateAt 2 200)).
  right. right. reflexivity.
Defined.

Lemma buildValToLastHeightMap_returns_witness :
  is_Some (buildValToLastHeightMap Scenario.envRecent (Scenario.stateAt 4 400)).
Proof.
  apply (buildValToLastHeightMap_returns Scenario.envRecent (Scenario.stateAt 4 400)).
  intros h Hnil. exists h. cbn in *.
  destruct (h <? 3); [reflexivity|]. destruct (h =? 3); discriminate.
Defined.

(** ** What Update does to the map, the list and the store *)

Lemma pruneValidators_lookup removeHeight vals : forall (m : gmap string Z) k,
  pruneValidators removeHeight vals m !! k
  = match m !! k with
    | Some h => if bool_decide (h = removeHeight /\ k ∈ addresses vals)
                then None else Some h
    | None => None
    end.
Proof.
  unfold pruneValidators, addresses.
  induction vals as [|val rest IH]; intros m k; cbn [foldl fmap list_fmap].
  - destruct (m !! k) as [h|]; [|done].
    rewrite bool_decide_eq_false_2; [done|]. set_solver.
  - rewrite IH. destruct (m !! ValAddress val) as [h0|] eqn:Hval.
    + destruct (Z.eqb_spec h0 removeHeight) as [->|Hne].
      * destruct (decide (k = ValAddress val)) as [->|Hk].
        -- rewrite lookup_delete_eq, Hval.
           rewrite bool_decide_eq_true_2; [done|]. set_solver.
        -- rewrite lookup_delete_ne by done.
           destruct (m !! k) as [h|]; [|done].
           apply (f_equal (fun b : bool => if b then None else Some h)).
           apply bool_decide_ext. set_solver.
      * destruct (m !! k) as [h|] eqn:Hmk; [|done].
        apply (f_equal (fun b : bool => if b then None else Some h)).
        apply bool_decide_ext.
        assert (k = ValAddress val -> h ≠ removeHeight) by (intros ->; congruence).
        set_solver.
    + destruct (m !! k) as [h|] eqn:Hmk; [|done].
      assert (k ≠ ValAddress val) by congruence.
      apply (f_equal (fun b : bool => if b then None else Some h)).
      apply bool_decide_ext. set_solver.
Qed.

(** The pool Update leaves, whatever the outcome, when the heights
    match. *)
Lemma Update_outcome env block st p :
  LastBlockHeight st = Block_Height block ->
  let p' := outcomePool (Update env block st p) in
  store p' = markAllCommitted (Block_Evidence block) (store p)
  /\ evidenceList p'
     = filter (fun ev =>
         removable (Block_Height block) (Block_Time block)
           (ParamsEvidence (ConsensusParams st))
           (list_to_set (evMapKey <$> Block_Evidence block)) ev = false)
         (evidenceList p)
  /\ state p' = st.
Proof.
  intros Heq. cbv zeta. rewrite (Update_matching _ _ _ _ Heq).
  match goal with |- context [cleanupValToLastHeight ?e ?h ?q] =>
    destruct (cleanupValToLastHeight_frame e h q) as (-> & -> & ->) end.
  done.
Qed.

(** X7.  With matching heights, whatever the outcome of Update, the pool
    holds the new state, and its list is the old list, in the old order,
    without the elements whose digest is the digest of evidence of the
    block and without the elements that are older than both thresholds of
    the new state, measured from the height and the time of the block. *)
Theorem Update_list :
  forall (env : Env) (block : Block) (st : sm_State) (evpool : Pool),
    LastBlockHeight st = Block_Height block ->
    let evpool' := outcomePool (Update env block st evpool) in
    let params := ParamsEvidence (ConsensusParams st) in
    state evpool' = st
    /\ evidenceList evpool' `sublist_of` evidenceList evpool
    /\ forall ev,
         ev ∈ evidenceList evpool'
         <-> ev ∈ evidenceList evpool
             /\ (Hash ev ∉ Hash <$> Block_Evidence block)
             /\ ~ (time_Sub (Block_Time block) (Time ev) > MaxAgeDuration params
                   /\ sub64 (Block_Height block) (Height ev) > MaxAgeNumBlocks params).
Proof.
  intros env block st evpool Heq evpool' params.
  destruct (Update_outcome env block st evpool Heq) as (_ & Hlist & Hst).
  fold evpool' in Hlist, Hst. fold params in Hlist.
  split; [exact Hst|]. rewrite Hlist. split; [apply sublist_filter|].
  intros ev. rewrite list_elem_of_filter. unfold removable, evMapKey.
  rewrite orb_false_iff, andb_false_iff, bool_decide_eq_false.
  rewrite elem_of_list_to_set.
  destruct (Z.gtb_spec (time_Sub (Block_Time block) (Time ev)) (MaxAgeDuration params));
    destruct (Z.gtb_spec (sub64 (Block_Height block) (Height ev)) (MaxAgeNumBlocks params));
    intuition (try discriminate; try lia).
Qed.

Lemma Update_list_witness :
  state (outcomePool (Update Scenario.env (mkBlock 50 5000 []) (Scenario.stateAt 50 5000)
                        Scenario.poolAlice)) = Scenario.stateAt 50 5000
  /\ (Scenario.evAlice ∉
        evidenceList (outcomePool (Update Scenario.env (mkBlock 50 5000 [])
                                     (Scenario.stateAt 50 5000) Scenario.poolAlice))).
Proof.
  destruct (Update_list Scenario.env (mkBlock 50 5000 []) (Scenario.stateAt 50 5000)
              Scenario.poolAlice eq_refl) as (Hst & _ & Hiff).
  split; [exact Hst|]. intros Hin. apply Hiff in Hin as (_ & _ & Hyoung).
  apply Hyoung. vm_compute. split; reflexivity.
Defined.

(** X8.  When the time of the block is the last block time of the new
    state, no element that Update leaves in the list is expired for the
    pool it leaves. *)
Theorem Update_leaves_no_expired :
  forall (env : Env) (block : Block) (st : sm_State) (evpool : Pool) (ev : Evidence),
    LastBlockHeight st = Block_Height block ->
    LastBlockTime st = Block_Time block ->
    ev ∈ evidenceList (outcomePool (Update env block st evpool)) ->
    IsExpired (outcomePool (Update env block st evpool)) ev = false.
Proof.
  intros env block st evpool ev Heq Htime Hin.
  destruct (Update_outcome env block st evpool Heq) as (_ & Hlist & Hst).
  rewrite Hlist in Hin. apply list_elem_of_filter in Hin as [Hkeep _].
  unfold removable in Hkeep. apply orb_false_iff in Hkeep as [_ Hage].
  unfold IsExpired, Pool_State. rewrite Hst, Heq, Htime.
  by rewrite andb_comm.
Qed.

Lemma Update_leaves_no_expired_witness :
  IsExpired (outcomePool (Update Scenario.env (mkBlock 5 500 []) (Scenario.stateAt 5 500)
                            Scenario.poolAlice)) Scenario.evAlice = false.
Proof.
  apply (Update_leaves_no_expired Scenario.env (mkBlock 5 500 []) (Scenario.stateAt 5 500)
           Scenario.poolAlice Scenario.evAlice eq_refl eq_refl).
  vm_compute. left.
Defined.

(** X9.  Update never adds an entry to the map of last heights and never
    changes a recorded height.  An entry that is gone had the cutoff
    height, the cutoff is at least 1, and the load of the validator set of
    the cutoff returned an error together with a set that holds the
    address; and with matching heights every such entry is gone. *)
Theorem Update_valToLastHeight_only_shrinks :
  forall (env : Env) (block : Block) (st : sm_State) (evpool : Pool) (a : string),
    let evpool' := outcomePool (Update env block st evpool) in
    let removeHeight :=
      sub64 (Block_Height block) (MaxAgeNumBlocks (ParamsEvidence (ConsensusParams st))) in
    (forall h, valToLastHeight evpool' !! a = Some h ->
               valToLastHeight evpool !! a = Some h)
    /\ (forall h, valToLastHeight evpool !! a = Some h ->
                  valToLastHeight evpool' !! a = None ->
                  h = removeHeight /\ 1 <= removeHeight
                  /\ exists vs e, LoadValidators env removeHeight = (Some vs, Some e)
                                  /\ a ∈ addresses (Validators vs))
    /\ (forall vs e,
          LastBlockHeight st = Block_Height block ->
          1 <= removeHeight ->
          LoadValidators env removeHeight = (Some vs, Some e) ->
          a ∈ addresses (Validators vs) ->
          valToLastHeight evpool !! a = Some removeHeight ->
          valToLastHeight evpool' !! a = None).
Proof.
  intros env block st evpool a evpool' removeHeight. subst evpool'.
  destruct (Z.eq_dec (LastBlockHeight st) (Block_Height block)) as [Heq|Hne].
  2:{ rewrite (Update_mismatch _ _ _ _ Hne).
      split; [done|]. split; [congruence|contradiction]. }
  rewrite (Update_matching _ _ _ _ Heq).
  unfold cleanupValToLastHeight, bind, gets, Pool_State. cbn [state].
  fold removeHeight.
  destruct (Z.geb_spec removeHeight 1) as [Hge|Hlt].
  2:{ cbn. split; [done|]. split; [congruence|lia]. }
  destruct (LoadValidators env removeHeight) as [[vs|] [e|]] eqn:Hload; cbn;
    try (split; [done|]; split; [congruence|congruence]).
  rewrite pruneValidators_lookup. split; [|split].
  - intros h. destruct (valToLastHeight evpool !! a) as [x|]; [|done].
    destruct (bool_decide _); [done|done].
  - intros h ->.
    destruct (bool_decide_reflect (h = removeHeight /\ a ∈ addresses (Validators vs)))
      as [[-> Ha]|_]; [|done].
    intros _. split; [done|]. split; [lia|]. by exists vs, e.
  - intros vs' e' _ _ [= <- <-] Ha ->.
    by rewrite bool_decide_eq_true_2.
Qed.

Example Update_prunes_on_load_error :
  valToLastHeight
    (outcomePool (Update Scenario.envFaulty (mkBlock 5 500 []) (Scenario.stateAt 5 500)
                    Scenario.pool0))
  = {[ "alice" := 4; "bob" := 4 ]}.
Proof. vm_compute. reflexivity. Qed.

(** X10.  Update touches the store only to mark the evidence of the block
    as committed: for a block without evidence the store, and so the
    result of PendingEvidence, is as before, also for the evidence that
    the same call takes out of the list as too old. *)
Theorem Update_empty_block_keeps_store :
  forall (env : Env) (block : Block) (st : sm_State) (evpool : Pool) (maxNum : Z),
    Block_Evidence block = [] ->
    store (outcomePool (Update env block st evpool)) = store evpool
    /\ PendingEvidence (outcomePool (Update env block st evpool)) maxNum
       = PendingEvidence evpool maxNum.
Proof.
  intros env block st evpool maxNum Hnil.
  assert (Hstore : store (outcomePool (Update env block st evpool)) = store evpool).
  { destruct (Z.eq_dec (LastBlockHeight st) (Block_Height block)) as [Heq|Hne].
    - destruct (Update_outcome env block st evpool Heq) as (-> & _ & _).
      by rewrite Hnil.
    - by rewrite (Update_mismatch _ _ _ _ Hne). }
  split; [exact Hstore|]. unfold PendingEvidence. by rewrite Hstore.
Qed.

Lemma Update_empty_block_keeps_store_witness :
  evidenceList (outcomePool (Update Scenario.env (mkBlock 50 5000 [])
                               (Scenario.stateAt 50 5000) Scenario.poolAlice)) = []
  /\ PendingEvidence (outcomePool (Update Scenario.env (mkBlock 50 5000 [])
                                     (Scenario.stateAt 50 5000) Scenario.poolAlice)) (-1)
     = [Scenario.evAlice].
Proof.
  split; [vm_compute; reflexivity|].
  rewrite (proj2 (Update_empty_block_keeps_store Scenario.env (mkBlock 50 5000 [])
                    (Scenario.stateAt 50 5000) Scenario.poolAlice (-1) eq_refl)).
  vm_compute. reflexivity.
Defined.

(** ** What AddEvidence does to the pool *)

(** A unit that goes into the list was verified against the given state
    with the header fetched for it, and has a validator in the set. *)
Lemma addEvidenceUnit_accepts env st valSet evidence ev p p' :
  addEvidenceUnit env st valSet evidence ev p = Done p' None ->
  evidenceList p' = evidenceList p ++ [ev]
  /\ state p' = state p
  /\ valToLastHeight p' = valToLastHeight p
  /\ exists header vs val,
       fetchHeader env ev = inl header
       /\ VerifyEvidence env st ev header = None
       /\ valSet = Some vs
       /\ (GetByAddress vs (Address ev)).2 = Some val.
Proof.
  unfold addEvidenceUnit, bind, gets, ret, panic, modify.
  destruct (Store_Has (store p) evidence) as [ok [e|]]; [discriminate|].
  destruct ok; [discriminate|].
  destruct (fetchHeader env ev) as [header|e]; [|discriminate].
  destruct (VerifyEvidence env st ev header) eqn:Hverify; [discriminate|].
  destruct valSet as [vs|]; [|discriminate].
  destruct (GetByAddress vs (Address ev)).2 as [val|] eqn:Hget; [|discriminate].
  destruct (Store_addEvidence (store p) ev (VotingPower val)) as [s' [e|]];
    [discriminate|].
  intros [= <-]. cbn. repeat split. by exists header, vs, val.
Qed.

(** The list after the loop, whatever its outcome: the old list and then
    the units that went in, a prefix of the units of the loop, each of
    them verified. *)
Lemma addEvidenceLoop_outcome env st valSet evidence evList : forall p,
  let p' := outcomePool (addEvidenceLoop env st valSet evidence evList p) in
  state p' = state p
  /\ valToLastHeight p' = valToLastHeight p
  /\ exists added,
       evidenceList p' = evidenceList p ++ added
       /\ added `prefix_of` evList
       /\ (forall r, addEvidenceLoop env st valSet evidence evList p = Done p' r ->
                     r = None -> added = evList)
       /\ forall u, u ∈ added ->
            exists header vs val,
              fetchHeader env u = inl header
              /\ VerifyEvidence env st u header = None
              /\ valSet = Some vs
              /\ (GetByAddress vs (Address u)).2 = Some val.
Proof.
  induction evList as [|ev rest IH]; intros p; cbv zeta.
  - cbn. split; [done|]. split; [done|]. exists [].
    rewrite app_nil_r. split; [done|]. split; [done|]. split; [done|].
    intros u Hu. inversion Hu.
  - cbn [addEvidenceLoop]. unfold bind.
    pose proof (addEvidenceUnit_cases env st valSet evidence ev p) as Hc.
    destruct (addEvidenceUnit env st valSet evidence ev p) as [p1 [e|]|p1 msg] eqn:Hstep.
    + subst p1. cbn. split; [done|]. split; [done|]. exists [].
      rewrite app_nil_r. split; [done|]. split; [apply prefix_nil|].
      split; [intros r Hr Hnone; subst r; discriminate|]. intros u Hu. inversion Hu.
    + clear Hc.
      destruct (addEvidenceUnit_accepts _ _ _ _ _ _ _ Hstep) as (Hl & Hst & Hmap & Hver).
      destruct (IH p1) as (Hst' & Hmap' & added & Hl' & Hpre & Hall & Hver').
      split; [congruence|]. split; [congruence|].
      exists (ev :: added). split; [rewrite Hl', Hl, <- app_assoc; done|].
      split; [by apply prefix_cons|]. split.
      * intros r Hr Hnone. f_equal. by apply (Hall r).
      * intros u Hu. apply elem_of_cons in Hu as [->|Hu]; [exact Hver|by apply Hver'].
    + subst p1. cbn. split; [done|]. split; [done|]. exists [].
      rewrite app_nil_r. split; [done|]. split; [apply prefix_nil|].
      split; [discriminate|]. intros u Hu. inversion Hu.
Qed.

(** X11.  Whatever its outcome, AddEvidence leaves the state snapshot and
    the map of last heights alone, and only appends to the list; each
    element it appends passed VerifyEvidence against the state the pool
    held at the call, with the header fetched for it, and has a validator
    of its address in the set loaded at the height of the submitted
    evidence. *)
Theorem AddEvidence_appends_verified :
  forall (env : Env) (evidence : Evidence) (evpool : Pool),
    let evpool' := outcomePool (AddEvidence env evidence evpool) in
    state evpool' = state evpool
    /\ valToLastHeight evpool' = valToLastHeight evpool
    /\ exists added,
         evidenceList evpool' = evidenceList evpool ++ added
         /\ forall u, u ∈ added ->
              exists header vs val,
                fetchHeader env u = inl header
                /\ VerifyEvidence env (state evpool) u header = None
                /\ (LoadValidators env (Height evidence)).1 = Some vs
                /\ (GetByAddress vs (Address u)).2 = Some val.
Proof.
  intros env evidence evpool. cbv zeta. rewrite AddEvidence_unfold.
  destruct (evidenceUnits env evpool evidence) as [e|[valSet evList]] eqn:Hunits.
  - cbn. split; [done|]. split; [done|]. exists []. rewrite app_nil_r.
    split; [done|]. intros u Hu. inversion Hu.
  - destruct (addEvidenceLoop_outcome env (state evpool) valSet evidence evList evpool)
      as (Hst & Hmap & added & Hl & _ & _ & Hver).
    split; [exact Hst|]. split; [exact Hmap|]. exists added. split; [exact Hl|].
    intros u Hu. destruct (Hver u Hu) as (header & vs & val & Hf & Hv & -> & Hg).
    exists header, vs, val. repeat split; try assumption.
    by rewrite (evidenceUnits_valSet _ _ _ _ _ Hunits).
Qed.

(** X12.  When AddEvidence returns nil, the list has grown by exactly the
    units of the submission, in their order: the submitted evidence
    itself, or what Split returned for composite evidence. *)
Theorem AddEvidence_success_appends_units :
  forall (env : Env) (evidence : Evidence) (evpool evpool' : Pool),
    AddEvidence env evidence evpool = Done evpool' None ->
    exists valSet units,
      evidenceUnits env evpool evidence = inr (valSet, units)
      /\ evidenceList evpool' = evidenceList evpool ++ units
      /\ (isCompositeEvidence evidence = false -> units = [evidence]).
Proof.
  intros env evidence evpool evpool' Hadd. rewrite AddEvidence_unfold in Hadd.
  destruct (evidenceUnits env evpool evidence) as [e|[valSet evList]] eqn:Hunits;
    [discriminate|].
  exists valSet, evList. split; [reflexivity|].
  destruct (addEvidenceLoop_outcome env (state evpool) valSet evidence evList evpool)
    as (_ & _ & added & Hl & _ & Hall & _).
  rewrite Hadd in Hl, Hall. cbn in Hl, Hall.
  rewrite (Hall None eq_refl eq_refl) in Hl. split; [exact Hl|].
  intros Hatom. unfold evidenceUnits in Hunits.
  destruct (LoadValidators env (Height evidence)) as [vs [e|]]; [discriminate|].
  rewrite Hatom in Hunits. by injection Hunits as _ <-.
Qed.

Lemma AddEvidence_success_appends_units_witness :
  exists valSet units,
    evidenceUnits Scenario.env Scenario.poolNew Scenario.evConflict = inr (valSet, units)
    /\ evidenceList Scenario.poolBoth = evidenceList Scenario.poolNew ++ units
    /\ (isCompositeEvidence Scenario.evConflict = false -> units = [Scenario.evConflict]).
Proof.
  apply (AddEvidence_success_appends_units Scenario.env Scenario.evConflict
           Scenario.poolNew Scenario.poolBoth).
  vm_compute. reflexivity.
Defined.

(** X13.  For evidence that is not composite AddEvidence is all or
    nothing: when it returns an error or panics the pool is as it was, and
    when it returns nil the list has grown by the evidence alone. *)
Theorem AddEvidence_atomic_all_or_nothing :
  forall (env : Env) (evidence : Evidence) (evpool : Pool),
    isCompositeEvidence evidence = false ->
    match AddEvidence env evidence evpool with
    | Done evpool' (Some _) => evpool' = evpool
    | Panic evpool' _ => evpool' = evpool
    | Done evpool' None => evidenceList evpool' = evidenceList evpool ++ [evidence]
    end.
Proof.
  intros env evidence evpool Hatom. rewrite AddEvidence_unfold.
  unfold evidenceUnits.
  destruct (LoadValidators env (Height evidence)) as [valSet [e|]]; [reflexivity|].
  rewrite Hatom. cbn [addEvidenceLoop]. unfold bind.
  pose proof (addEvidenceUnit_cases env (state evpool) valSet evidence evidence evpool)
    as Hc.
  destruct (addEvidenceUnit env (state evpool) valSet evidence evidence evpool)
    as [p1 [e|]|p1 msg] eqn:Hstep; cbn; try exact Hc.
  by destruct (addEvidenceUnit_accepts _ _ _ _ _ _ _ Hstep) as (Hl & _).
Qed.

Lemma AddEvidence_atomic_all_or_nothing_witness :
  AddEvidence Scenario.envStrict Scenario.evBob Scenario.poolAlice
  = Done Scenario.poolAlice
      (Some (Errorf_failedToVerify Scenario.evBob (ErrOther "invalid signature"))).
Proof.
  pose proof (AddEvidence_atomic_all_or_nothing Scenario.envStrict Scenario.evBob
                Scenario.poolAlice eq_refl) as Hsame.
  destruct (AddEvidence Scenario.envStrict Scenario.evBob Scenario.poolAlice)
    as [p' [e|]|p' msg] eqn:Hadd; [|vm_compute in Hadd; discriminate ..].
  subst p'. vm_compute in Hadd. injection Hadd as <-. reflexivity.
Defined.

(** X14.  Composite evidence that verifies and that Split turns into no
    unit at all is answered with nil, and nothing is stored or listed. *)
Theorem AddEvidence_empty_split :
  forall (env : Env) (evidence : Evidence) (evpool : Pool)
         (valSet : option ValidatorSet) (blockMeta : BlockMeta),
    isCompositeEvidence evidence = true ->
    LoadValidators env (Height evidence) = (valSet, None) ->
    LoadBlockMeta env (Height evidence) = Some blockMeta ->
    VerifyComposite env evidence (BlockMeta_Header blockMeta) valSet = None ->
    Split env evidence (BlockMeta_Header blockMeta) valSet (valToLastHeight evpool) = [] ->
    AddEvidence env evidence evpool = Done evpool None.
Proof.
  intros env evidence evpool valSet blockMeta Hcomp Hload Hmeta Hverify Hsplit.
  rewrite AddEvidence_unfold. unfold evidenceUnits.
  rewrite Hload, Hcomp, Hmeta, Hverify, Hsplit. reflexivity.
Qed.

Lemma AddEvidence_empty_split_witness :
  AddEvidence Scenario.env
    (mkEvidence ConflictingHeadersEvidence 3 300 "" "h-other") Scenario.poolAlice
  = Done Scenario.poolAlice None.
Proof.
  apply (AddEvidence_empty_split Scenario.env
           (mkEvidence ConflictingHeadersEvidence 3 300 "" "h-other") Scenario.poolAlice
           (Some Scenario.vals) (mkBlockMeta (Scenario.header 3)));
    reflexivity.
Defined.

(** X15.  The block store is read only for composite evidence and for
    lunatic validator units: for evidence of the other types the outcome
    of AddEvidence is the same with any block store. *)
Theorem AddEvidence_ignores_block_store :
  forall (env : Env) (blockStore : Z -> option BlockMeta)
         (evidence : Evidence) (evpool : Pool),
    isCompositeEvidence evidence = false ->
    isLunaticValidatorEvidence evidence = false ->
    AddEvidence (withBlockStore env blockStore) evidence evpool
    = AddEvidence env evidence evpool.
Proof.
  intros env blockStore evidence evpool Hatom Hlun.
  rewrite !AddEvidence_unfold. unfold evidenceUnits, withBlockStore. cbn.
  destruct (LoadValidators env (Height evidence)) as [valSet [e|]]; [reflexivity|].
  rewrite Hatom. cbn [addEvidenceLoop]. unfold bind, addEvidenceUnit, fetchHeader.
  rewrite Hlun. reflexivity.
Qed.

Lemma AddEvidence_ignores_block_store_witness :
  AddEvidence (withBlockStore Scenario.env (fun _ => None)) Scenario.evAlice Scenario.pool0
  = AddEvidence Scenario.env Scenario.evAlice Scenario.pool0.
Proof.
  apply (AddEvidence_ignores_block_store Scenario.env (fun _ => None)
           Scenario.evAlice Scenario.pool0); reflexivity.
Defined.

(** ** Expiry as the chain advances *)

Lemma time_Sub_mono t t' u : t <= t' -> time_Sub t u <= time_Sub t' u.
Proof.
  intros Ht. unfold time_Sub, minDuration, maxDuration. cbv zeta.
  destruct (Z.ltb_spec (t - u) (- 2 ^ 63)); destruct (Z.ltb_spec (t' - u) (- 2 ^ 63));
    destruct (Z.ltb_spec (2 ^ 63 - 1) (t - u));
    destruct (Z.ltb_spec (2 ^ 63 - 1) (t' - u)); lia.
Qed.

Lemma time_Sub_nonpos t u : t <= u -> time_Sub t u <= 0.
Proof.
  intros Ht. unfold time_Sub, minDuration, maxDuration. cbv zeta.
  destruct (Z.ltb_spec (t - u) (- 2 ^ 63)); [lia|].
  destruct (Z.ltb_spec (2 ^ 63 - 1) (t - u)); lia.
Qed.

(** X16.  Expired evidence stays expired while the chain advances: with
    the same evidence parameters, heights that are not negative, and a
    last block height and time that do not go back, evidence expired for
    one pool is expired for the other. *)
Theorem IsExpired_persists :
  forall (evpool evpool' : Pool) (ev : Evidence),
    ParamsEvidence (ConsensusParams (state evpool'))
    = ParamsEvidence (ConsensusParams (state evpool)) ->
    0 <= Height ev < 2 ^ 63 ->
    0 <= LastBlockHeight (state evpool) ->
    LastBlockHeight (state evpool) <= LastBlockHeight (state evpool') < 2 ^ 63 ->
    LastBlockTime (state evpool) <= LastBlockTime (state evpool') ->
    IsExpired evpool ev = true ->
    IsExpired evpool' ev = true.
Proof.
  intros evpool evpool' ev Hparams Hev H0 Hh Ht. unfold IsExpired, Pool_State.
  rewrite Hparams, !sub64_nonneg by lia.
  pose proof (time_Sub_mono _ _ (Time ev) Ht) as Hmono.
  rewrite !andb_true_iff, !Z.gtb_gt. lia.
Qed.

Lemma IsExpired_persists_witness :
  IsExpired (set_state (Scenario.stateAt 60 6000) Scenario.pool0) Scenario.evAlice = true.
Proof.
  apply (IsExpired_persists (set_state (Scenario.stateAt 50 5000) Scenario.pool0)
           (set_state (Scenario.stateAt 60 6000) Scenario.pool0) Scenario.evAlice);
    first [reflexivity | cbn; lia].
Defined.

(** X17.  Evidence that is not older than the state of the pool in one of
    the two measures is not expired: its time is not before the last
    block time and MaxAgeDuration is not negative, or its height is not
    below the last block height, both heights are not negative and
    MaxAgeNumBlocks is not negative. *)
Theorem IsExpired_not_older :
  forall (evpool : Pool) (ev : Evidence),
    let st := state evpool in
    let params := ParamsEvidence (ConsensusParams st) in
    (0 <= MaxAgeDuration params /\ LastBlockTime st <= Time ev)
    \/ (0 <= MaxAgeNumBlocks params
        /\ 0 <= LastBlockHeight st <= Height ev /\ Height ev < 2 ^ 63) ->
    IsExpired evpool ev = false.
Proof.
  intros evpool ev st params Hyoung. unfold IsExpired, Pool_State. fold st params.
  apply andb_false_iff. destruct Hyoung as [[Hd Ht]|(Hn & Hh & Hev)].
  - right. pose proof (time_Sub_nonpos _ _ Ht).
    destruct (Z.gtb_spec (time_Sub (LastBlockTime st) (Time ev)) (MaxAgeDuration params));
      [lia|reflexivity].
  - left. rewrite sub64_nonneg by lia.
    destruct (Z.gtb_spec (LastBlockHeight st - Height ev) (MaxAgeNumBlocks params));
      [lia|reflexivity].
Qed.

Lemma IsExpired_not_older_witness :
  IsExpired (set_state (Scenario.stateAt 2 5000) Scenario.pool0) Scenario.evAlice = false.
Proof.
  apply (IsExpired_not_older (set_state (Scenario.stateAt 2 5000) Scenario.pool0)
           Scenario.evAlice).
  right. cbn. lia.
Defined.

Lemma Update_valToLastHeight_only_shrinks_witness :
  valToLastHeight
    (outcomePool (Update Scenario.envFaulty (mkBlock 5 500 []) (Scenario.stateAt 5 500)
                    Scenario.pool0)) !! "carol" = None.
Proof.
  apply (proj2 (proj2 (Update_valToLastHeight_only_shrinks Scenario.envFaulty
                         (mkBlock 5 500 []) (Scenario.stateAt 5 500) Scenario.pool0 "carol"))
           (mkValidatorSet [Scenario.carol]) (ErrOther "corrupt")).
  - reflexivity.
  - vm_compute. discriminate.
  - reflexivity.
  - vm_compute. left.
  - reflexivity.
Defined.
